(** * NightOwl Chat: the connection registry and the persist-and-broadcast path

    A shallow embedding of [src/main.py]: the [Message] model, the
    [ConnectionManager] class and the [websocket_endpoint] session handler.

    The program is an asyncio application.  One coroutine runs per connection;
    control only changes hands at an [await].  The embedding is a state and
    exception monad over a [World] that holds

    - the program's own state: [manager.active_connections] (a Python [dict])
      and the contents of [messages_collection];
    - the environment: which sockets refuse a write, whether the database
      refuses an insert, and what the other sessions do to the shared
      registry while this coroutine is suspended in an [await];
    - a record of the I/O performed, in order.

    External names ([WebSocket.accept], [send_text], [receive_text],
    [insert_one], the cursor methods, [json.dumps], [datetime.now]) are
    modelled at their interface. *)

From Stdlib Require Import List String Ascii Bool Arith ZArith Lia Sorted Permutation.
From Stdlib Require Import DecimalString.
Import ListNotations.
Local Open Scope string_scope.
Local Open Scope list_scope.
Local Open Scope nat_scope.

Set Implicit Arguments.

(** ** Exceptions and results *)

Inductive exn : Type :=
| WebSocketDisconnect
| RuntimeError (msg : string)
| KeyError (key : string)
| ValueError (msg : string)
| OtherError (name : string).

Inductive result (A : Type) : Type :=
| Ok (a : A)
| Raise (e : exn).

Arguments Ok {A} a.
Arguments Raise {A} e.

Definition is_disconnect (e : exn) : bool :=
  match e with WebSocketDisconnect => true | _ => false end.

(** ** Python's [dict], as far as the program uses it

    CPython keeps a dict's entries in one array in insertion order.  Deleting a
    key leaves an empty slot behind, assigning to a key that is present
    overwrites the value in its slot, and assigning to a new key fills the next
    slot at the end.  A values-iterator holds a position in that array and
    reads the dict afresh at every step, so it sees what was done to the dict
    since it was created.  (The compaction of the array when the table grows
    is not modelled; no result below rests on the slot index of a key
    inserted while an iteration is under way.) *)

Module PyDict.
Section Dict.
Variable V : Type.

Definition slot : Type := option (string * V).
Definition t : Type := list slot.

Definition empty : t := [].

(** [d.get(k)] *)
Fixpoint get (d : t) (k : string) : option V :=
  match d with
  | [] => None
  | None :: d' => get d' k
  | Some (k', v) :: d' => if String.eqb k' k then Some v else get d' k
  end.

(** [k in d] *)
Definition contains (d : t) (k : string) : bool :=
  match get d k with Some _ => true | None => false end.

(** [d[k] = v] *)
Fixpoint setitem (d : t) (k : string) (v : V) : t :=
  match d with
  | [] => [Some (k, v)]
  | None :: d' => None :: setitem d' k v
  | Some (k', v') :: d' =>
      if String.eqb k' k then Some (k', v) :: d'
      else Some (k', v') :: setitem d' k v
  end.

(** [del d[k]]; [KeyError] when [k] is absent. *)
Fixpoint delitem (d : t) (k : string) : result t :=
  match d with
  | [] => Raise (KeyError k)
  | None :: d' =>
      match delitem d' k with
      | Ok d'' => Ok (None :: d'')
      | Raise e => Raise e
      end
  | Some (k', v') :: d' =>
      if String.eqb k' k then Ok (None :: d')
      else match delitem d' k with
           | Ok d'' => Ok (Some (k', v') :: d'')
           | Raise e => Raise e
           end
  end.

(** [list(d.items())], [list(d.keys())], [list(d.values())], [len(d)] *)
Fixpoint items (d : t) : list (string * V) :=
  match d with
  | [] => []
  | None :: d' => items d'
  | Some kv :: d' => kv :: items d'
  end.

Definition keys (d : t) : list string := map fst (items d).
Definition values (d : t) : list V := map snd (items d).
Definition ma_used (d : t) : nat := List.length (items d).

(** The first occupied slot at index [pos] or later, with its index. *)
Fixpoint next_live (pos : nat) (d : t) : option (nat * V) :=
  match d with
  | [] => None
  | s :: d' =>
      match pos with
      | S pos' =>
          match next_live pos' d' with
          | Some (i, v) => Some (S i, v)
          | None => None
          end
      | O =>
          match s with
          | Some (_, v) => Some (O, v)
          | None =>
              match next_live O d' with
              | Some (i, v) => Some (S i, v)
              | None => None
              end
          end
      end
  end.

(** One step of a values-iterator ([dictiter_iternextvalue]).  The iterator
    was created when the dict held [di_used] entries, stands at slot
    [di_pos] and expects [len] more values.  [Ok None] is [StopIteration]. *)
Definition iternextvalue (di_used di_pos len : nat) (d : t)
  : result (option (V * nat)) :=
  if negb (di_used =? ma_used d) then
    Raise (RuntimeError "dictionary changed size during iteration")
  else
    match next_live di_pos d with
    | None => Ok None
    | Some (i, v) =>
        match len with
        | O => Raise (RuntimeError "dictionary keys changed during iteration")
        | S _ => Ok (Some (v, S i))
        end
    end.

(** No key occupies two slots. *)
Definition wf (d : t) : Prop := NoDup (keys d).
End Dict.
End PyDict.

(** ** Values *)

(** A [WebSocket] object, named by its identity. *)
Definition WebSocket : Type := nat.

(** [class Message(BaseModel)] *)
Record Message : Type := {
  client_id : string;
  content : string;
  timestamp : string
}.

(** A document: a Python dict from field names to strings. *)
Definition Doc : Type := list (string * string).

(** [message.dict()] *)
Definition dict (m : Message) : Doc :=
  [("client_id", client_id m); ("content", content m); ("timestamp", timestamp m)].

(** I/O performed by the program, in the order it happened. *)
Inductive io : Type :=
| Accepted (ws : WebSocket)
| Sent (ws : WebSocket) (text : string)
| Inserted (doc : Doc)
| Queried (limit : Z).

(** What another session does to the shared registry while this one is
    suspended: its handler registers, or its handler's [except] clause
    unregisters. *)
Inductive event : Type :=
| Registers (client_id : string) (websocket : WebSocket)
| Unregisters (client_id : string).

(** [active_connections] is [manager.active_connections] and
    [messages_collection] the documents of [db.messages] in the order they
    were inserted.  [send_fault ws] is the exception with which [ws] refuses a
    write, [insert_fault] and [find_fault] those with which the database
    refuses an insert or a query.  [pending] is the schedule: its head is what
    the other sessions do during this coroutine's next suspension.  [trace] is
    the I/O performed so far. *)
Record World : Type := {
  active_connections : PyDict.t WebSocket;
  messages_collection : list Doc;
  send_fault : WebSocket -> option exn;
  insert_fault : option exn;
  find_fault : option exn;
  pending : list (list event);
  trace : list io
}.

Definition set_connections (d : PyDict.t WebSocket) (w : World) : World :=
  {| active_connections := d;
     messages_collection := messages_collection w;
     send_fault := send_fault w;
     insert_fault := insert_fault w;
     find_fault := find_fault w;
     pending := pending w;
     trace := trace w |}.

Definition set_collection (c : list Doc) (w : World) : World :=
  {| active_connections := active_connections w;
     messages_collection := c;
     send_fault := send_fault w;
     insert_fault := insert_fault w;
     find_fault := find_fault w;
     pending := pending w;
     trace := trace w |}.

Definition set_pending (p : list (list event)) (w : World) : World :=
  {| active_connections := active_connections w;
     messages_collection := messages_collection w;
     send_fault := send_fault w;
     insert_fault := insert_fault w;
     find_fault := find_fault w;
     pending := p;
     trace := trace w |}.

Definition emit (x : io) (w : World) : World :=
  {| active_connections := active_connections w;
     messages_collection := messages_collection w;
     send_fault := send_fault w;
     insert_fault := insert_fault w;
     find_fault := find_fault w;
     pending := pending w;
     trace := trace w ++ [x] |}.

(** ** The monad: state that survives an exception *)

Definition M (A : Type) : Type := World -> result A * World.

Definition bind {A B} (c : M A) (k : A -> M B) : M B :=
  fun w =>
    match c w with
    | (Ok a, w') => k a w'
    | (Raise e, w') => (Raise e, w')
    end.

Notation "x <- c ;; k" := (bind c (fun x => k))
  (at level 61, c at next level, right associativity).
Notation "c ;;; k" := (bind c (fun _ => k))
  (at level 61, right associativity).

(** ** External operations, at their interface *)

(** [await websocket.accept()] *)
Definition accept (websocket : WebSocket) : M unit :=
  fun w => (Ok tt, emit (Accepted websocket) w).

(** [await websocket.send_text(text)]: the write is refused with the socket's
    fault, if it has one, and reaches the peer otherwise.  (A socket answers
    every write alike; what the framework raises at a second write to a
    socket that has failed once is not modelled.) *)
Definition send_text (websocket : WebSocket) (text : string) : M unit :=
  fun w =>
    match send_fault w websocket with
    | Some e => (Raise e, w)
    | None => (Ok tt, emit (Sent websocket text) w)
    end.

(** [await messages_collection.insert_one(doc)]: the document joins the
    collection, or the driver's exception is raised and nothing is stored.
    (The [_id] key the driver adds to what it stores is left out.) *)
Definition insert_one (doc : Doc) : M unit :=
  fun w =>
    match insert_fault w with
    | Some e => (Raise e, w)
    | None => (Ok tt, emit (Inserted doc) (set_collection (messages_collection w ++ [doc]) w))
    end.

(** [doc.get(name)] on a document *)
Fixpoint field (name : string) (doc : Doc) : option string :=
  match doc with
  | [] => None
  | (k, v) :: doc' => if String.eqb k name then Some v else field name doc'
  end.

(** The order of the sort key: a missing field sorts below every string, and
    strings compare byte by byte. *)
Definition key_leb (a b : option string) : bool :=
  match a, b with
  | None, _ => true
  | Some _, None => false
  | Some x, Some y => String.leb x y
  end.

(** [a] may stand before [b] in [sort(name, -1)]. *)
Definition desc_leb (name : string) (a b : Doc) : bool :=
  key_leb (field name b) (field name a).

Fixpoint insert_desc (name : string) (x : Doc) (l : list Doc) : list Doc :=
  match l with
  | [] => [x]
  | y :: l' => if desc_leb name x y then x :: l else y :: insert_desc name x l'
  end.

(** [cursor.sort(name, -1)] *)
Fixpoint sort_desc (name : string) (l : list Doc) : list Doc :=
  match l with
  | [] => []
  | x :: l' => insert_desc name x (sort_desc name l')
  end.

(** [cursor.limit(n)]: a limit of [0] is no limit, and a negative limit
    counts by its absolute value. *)
Definition cursor_limit (n : Z) (l : list Doc) : list Doc :=
  if Z.eqb n 0 then l else firstn (Z.abs_nat n) l.

(** [await cursor.to_list(length=n)]: a negative length is refused before any
    I/O; otherwise the query runs and at most [n] documents are collected. *)
Definition to_list (length : Z) (cursor : list Doc) : M (list Doc) :=
  fun w =>
    if Z.ltb length 0 then (Raise (ValueError "length must be non-negative"), w)
    else match find_fault w with
         | Some e => (Raise e, emit (Queried length) w)
         | None => (Ok (firstn (Z.to_nat length) cursor), emit (Queried length) w)
         end.

(** ** [json.dumps] on a document

    Default options: [", "] and [": "] as separators, and every character
    outside the printable ASCII range escaped.  A Rocq string stands for the
    Python string with the same code points, all below 256. *)

Definition dquote : string := String (ascii_of_nat 34) EmptyString.
Definition backslash : string := String (ascii_of_nat 92) EmptyString.

Definition hex_digit (n : nat) : string :=
  String (nth n ["0"; "1"; "2"; "3"; "4"; "5"; "6"; "7"; "8"; "9";
                 "a"; "b"; "c"; "d"; "e"; "f"]%char "0"%char) EmptyString.

Definition escape_char (c : ascii) : string :=
  let n := nat_of_ascii c in
  if n =? 34 then backslash ++ dquote
  else if n =? 92 then backslash ++ backslash
  else if n =? 10 then backslash ++ "n"
  else if n =? 13 then backslash ++ "r"
  else if n =? 9 then backslash ++ "t"
  else if n =? 8 then backslash ++ "b"
  else if n =? 12 then backslash ++ "f"
  else if (n <? 32) || (126 <? n) then
    backslash ++ "u00" ++ hex_digit (n / 16) ++ hex_digit (n mod 16)
  else String c EmptyString.

Fixpoint escape (s : string) : string :=
  match s with
  | EmptyString => EmptyString
  | String c s' => escape_char c ++ escape s'
  end.

Definition json_string (s : string) : string := dquote ++ escape s ++ dquote.

Definition py_json_dumps (doc : Doc) : string :=
  "{" ++ String.concat ", "
           (map (fun kv => (json_string (fst kv) ++ ": " ++ json_string (snd kv))%string) doc)
      ++ "}".

(** ** The session's view of the other sessions *)

(** [self.active_connections[client_id] = websocket] *)
Definition assign (client_id : string) (websocket : WebSocket) : M unit :=
  fun w => (Ok tt, set_connections
                     (PyDict.setitem (active_connections w) client_id websocket) w).

(** [ConnectionManager.disconnect] *)
Definition disconnect (client_id : string) : M unit :=
  fun w =>
    if PyDict.contains (active_connections w) client_id then
      match PyDict.delitem (active_connections w) client_id with
      | Ok d => (Ok tt, set_connections d w)
      | Raise e => (Raise e, w)
      end
    else (Ok tt, w).

Definition run_event (ev : event) (w : World) : World :=
  match ev with
  | Registers k ws => snd (assign k ws w)
  | Unregisters k => snd (disconnect k w)
  end.

Definition run_events (evs : list event) (w : World) : World :=
  fold_left (fun w ev => run_event ev w) evs w.

(** [await c]: the operation is started, the coroutine is suspended, the other
    sessions scheduled for this suspension run, and the coroutine resumes with
    the operation's outcome. *)
Definition await_ {A} (c : M A) : M A :=
  fun w =>
    let (r, w') := c w in
    (r, run_events (hd [] (pending w')) (set_pending (tl (pending w')) w')).

(** ** [ConnectionManager] and the session handler *)

Section Relay.
(** [json.dumps], as the program calls it on [message.dict()]. *)
Variable json_dumps : Doc -> string.

(** [ConnectionManager.__init__] *)
Definition init_connections : PyDict.t WebSocket := PyDict.empty WebSocket.

(** [ConnectionManager.connect] *)
Definition connect (client_id : string) (websocket : WebSocket) : M unit :=
  await_ (accept websocket) ;;;
  assign client_id websocket.

(** [ConnectionManager.send_personal_message]; a [WebSocket] object is
    truthy, so [if websocket:] asks whether [get] found one. *)
Definition send_personal_message (message : string) (client_id : string) : M unit :=
  fun w =>
    match PyDict.get (active_connections w) client_id with
    | Some websocket => await_ (send_text websocket message) w
    | None => (Ok tt, w)
    end.

(** The [for] loop of [ConnectionManager.broadcast], from an iterator in
    the state [(di_used, di_pos, len)]. *)
Fixpoint broadcast_loop (len di_used di_pos : nat) (message : string) : M unit :=
  fun w =>
    match PyDict.iternextvalue di_used di_pos len (active_connections w) with
    | Raise e => (Raise e, w)
    | Ok None => (Ok tt, w)
    | Ok (Some (connection, di_pos')) =>
        match len with
        | O => (Ok tt, w)
        | S len' =>
            (await_ (send_text connection message) ;;;
             broadcast_loop len' di_used di_pos' message) w
        end
    end.

(** [ConnectionManager.broadcast]: [self.active_connections.values()] is a
    view of the dict itself; the loop creates its iterator on entry. *)
Definition broadcast (message : string) : M unit :=
  fun w =>
    let n := PyDict.ma_used (active_connections w) in
    broadcast_loop n n 0 message w.

(** [ConnectionManager.add_to_history] *)
Definition add_to_history (message : Message) : M unit :=
  await_ (insert_one (dict message)).

(** [ConnectionManager.get_message_history] *)
Definition get_message_history (limit : Z) : M (list Doc) :=
  fun w =>
    let history := cursor_limit limit (sort_desc "timestamp" (messages_collection w)) in
    await_ (to_list limit history) w.

(** One pass of [websocket_endpoint]'s loop: what [receive_text] gives, and
    what [str(datetime.now())] reads when the message is built. *)
Record turn : Type := {
  incoming : result string;
  now : string
}.

(** [await websocket.receive_text()] *)
Definition receive_text (t : turn) : M string :=
  fun w => (incoming t, w).

(** The body of [while True]. *)
Definition iteration (client_id : string) (t : turn) : M unit :=
  data <- await_ (receive_text t) ;;
  let message := {| client_id := client_id; content := data; timestamp := now t |} in
  add_to_history message ;;;
  broadcast (json_dumps (dict message)).

(** How a run of the handler stands: suspended in [receive_text] with
    nothing to read yet, returned through the [except] clause, or left by an
    exception no clause catches. *)
Inductive status : Type :=
| Receiving
| Returned
| Propagated (e : exn).

(** [try: while True: ... except WebSocketDisconnect: manager.disconnect(client_id)] *)
Fixpoint serve (client_id : string) (turns : list turn) (w : World) : status * World :=
  match turns with
  | [] => (Receiving, w)
  | t :: turns' =>
      match iteration client_id t w with
      | (Ok _, w') => serve client_id turns' w'
      | (Raise e, w') =>
          if is_disconnect e then
            match disconnect client_id w' with
            | (Ok _, w'') => (Returned, w'')
            | (Raise e', w'') => (Propagated e', w'')
            end
          else (Propagated e, w')
      end
  end.

(** [websocket_endpoint] *)
Definition websocket_endpoint (websocket : WebSocket) (client_id : string)
           (turns : list turn) (w : World) : status * World :=
  match connect client_id websocket w with
  | (Ok _, w') => serve client_id turns w'
  | (Raise e, w') => (Propagated e, w')
  end.

(** The sockets a run has written [text] to, in order. *)
Fixpoint recipients (text : string) (tr : list io) : list WebSocket :=
  match tr with
  | [] => []
  | Sent ws text' :: tr' =>
      if String.eqb text' text then ws :: recipients text tr' else recipients text tr'
  | _ :: tr' => recipients text tr'
  end.
End Relay.

(** ** Vocabulary for the statements *)

(** The world after the I/O [xs], with the schedule [p] left. *)
Definition after (xs : list io) (p : list (list event)) (w : World) : World :=
  {| active_connections := active_connections w;
     messages_collection := messages_collection w;
     send_fault := send_fault w;
     insert_fault := insert_fault w;
     find_fault := find_fault w;
     pending := p;
     trace := trace w ++ xs |}.

(** One write of [text] to each socket of [hs], in order. *)
Definition sends (text : string) (hs : list WebSocket) : list io :=
  map (fun h => Sent h text) hs.

(** The process at start-up: [manager = ConnectionManager()], an empty
    collection, a healthy environment and nobody else around. *)
Definition init_world : World :=
  {| active_connections := init_connections;
     messages_collection := [];
     send_fault := fun _ => None;
     insert_fault := None;
     find_fault := None;
     pending := [];
     trace := [] |}.

(** The first [n] suspensions of the schedule [p] are quiet. *)
Definition quiet (n : nat) (p : list (list event)) : Prop :=
  Forall (fun evs => evs = []) (firstn n p).

(** What [disconnect] and the events do to the dict alone. *)
Definition unregister (d : PyDict.t WebSocket) (k : string) : PyDict.t WebSocket :=
  if PyDict.contains d k then
    match PyDict.delitem d k with
    | Ok d' => d'
    | Raise _ => d
    end
  else d.

Definition apply_event (d : PyDict.t WebSocket) (ev : event) : PyDict.t WebSocket :=
  match ev with
  | Registers k ws => PyDict.setitem d k ws
  | Unregisters k => unregister d k
  end.

Definition apply_events (evs : list event) (d : PyDict.t WebSocket) : PyDict.t WebSocket :=
  fold_left apply_event evs d.


Definition is_query (x : io) : bool :=
  match x with Queried _ => true | _ => false end.

(** The documents a stretch of I/O has inserted. *)
Fixpoint docs_of (xs : list io) : list Doc :=
  match xs with
  | [] => []
  | Inserted doc :: xs' => doc :: docs_of xs'
  | _ :: xs' => docs_of xs'
  end.

(** [w'] comes after [w]: the I/O [xs] has been performed and its inserts are
    in the collection, the environment's faults are the same, and the
    registry, whatever was done to it, still has one slot per key. *)
Definition evolves (xs : list io) (w w' : World) : Prop :=
  trace w' = trace w ++ xs
  /\ messages_collection w' = messages_collection w ++ docs_of xs
  /\ send_fault w' = send_fault w
  /\ insert_fault w' = insert_fault w
  /\ find_fault w' = find_fault w
  /\ (PyDict.wf (active_connections w) -> PyDict.wf (active_connections w')).

(** ** Sample worlds *)

Definition with_send_fault (ws : WebSocket) (e : exn) (w : World) : World :=
  {| active_connections := active_connections w;
     messages_collection := messages_collection w;
     send_fault := fun h => if h =? ws then Some e else send_fault w h;
     insert_fault := insert_fault w;
     find_fault := find_fault w;
     pending := pending w;
     trace := trace w |}.

Definition with_insert_fault (e : exn) (w : World) : World :=
  {| active_connections := active_connections w;
     messages_collection := messages_collection w;
     send_fault := send_fault w;
     insert_fault := Some e;
     find_fault := find_fault w;
     pending := pending w;
     trace := trace w |}.

(** ann, then bo, then cy have connected, on the sockets 1, 2 and 3. *)
Definition two_clients : World :=
  snd (connect "bo" 2 (snd (connect "ann" 1 init_world))).

Definition three_clients : World :=
  snd (connect "cy" 3 two_clients).

Definition closed_socket : exn := RuntimeError "Unexpected ASGI message websocket.send".
Definition storage_down : exn := OtherError "ServerSelectionTimeoutError".

(** bo's socket refuses every write. *)
Definition bo_refuses : World := with_send_fault 2 closed_socket three_clients.

(** While the first write of a broadcast is under way, cy's handler leaves. *)
Definition cy_leaves : World := set_pending [[Unregisters "cy"]] three_clients.

(** The message the handler builds in the pass [t] from what [receive_text]
    returned. *)
Definition built (client_id : string) (t : turn) (data : string) : Message :=
  {| client_id := client_id; content := data; timestamp := now t |}.

(** [a] is at least as new as [b], by the [timestamp] field. *)
Definition newest_first (a b : Doc) : Prop := desc_leb "timestamp" a b = true.

(** A world in which the database refuses the insert, and one in which bo
    registers while ann's insert is under way. *)
Definition storage_fails : World := with_insert_fault storage_down two_clients.

Definition one_client : World := snd (connect "ann" 1 init_world).

Definition bo_joins_late : World :=
  set_pending [[]; [Registers "bo" 2]] one_client.

Definition hello : turn :=
  {| incoming := Ok "hello"; now := "2024-05-01 10:00:00.000000" |}.

Definition goodbye : turn :=
  {| incoming := Raise WebSocketDisconnect; now := "2024-05-01 10:00:01.000000" |}.

Definition again : turn :=
  {| incoming := Ok "anyone there?"; now := "2024-05-01 10:00:07.250000" |}.

(** ann has sent two texts to a healthy room. *)
Definition after_two_texts : World :=
  snd (serve py_json_dumps "ann" [hello; again] two_clients).

(** While the first write of a broadcast is under way, dan's handler
    registers dan on socket 4. *)
Definition dan_joins : World := set_pending [[Registers "dan" 4]] three_clients.

(** bo's socket reports the end of its transport to whoever writes to it. *)
Definition bo_hangs_up : World := with_send_fault 2 WebSocketDisconnect three_clients.

(** The world once [doc] has been inserted with nobody else running. *)
Definition stored (doc : Doc) (w : World) : World :=
  {| active_connections := active_connections w;
     messages_collection := messages_collection w ++ [doc];
     send_fault := send_fault w;
     insert_fault := insert_fault w;
     find_fault := find_fault w;
     pending := [];
     trace := trace w ++ [Inserted doc] |}.

(** The text a turn delivers, and the document the handler of [client_id]
    makes of it. *)
Definition text_of (t : turn) : string :=
  match incoming t with Ok data => data | Raise _ => EmptyString end.

Definition doc_of (client_id : string) (t : turn) : Doc :=
  dict (built client_id t (text_of t)).

Definition delivers (t : turn) : Prop := exists data, incoming t = Ok data.

(** ** The page's script

    The functions of the [<script>] that [HTML_TEMPLATE] ships to the browser.
    A [Date] is taken by what [getHours()] and [getMinutes()] return, and the
    page by the value of the [message] input, the state of [socket] ([None]
    while the variable is undefined) and the frames handed to [socket.send]. *)

Module Script.

(** [n.toString()], for a whole number that is not negative *)
Definition toString (n : nat) : string :=
  NilEmpty.string_of_uint (Nat.to_uint n).

(** [s.padStart(2, '0')] *)
Definition padStart2 (s : string) : string :=
  match String.length s with
  | 0 => "00"
  | 1 => ("0" ++ s)%string
  | _ => s
  end.

(** [formatTime(date)] *)
Definition formatTime (getHours getMinutes : nat) : string :=
  let hours := getHours in
  let minutes := padStart2 (toString getMinutes) in
  let ampm := if 12 <=? hours then "PM" else "AM" in
  let hours := hours mod 12 in
  let hours := if hours =? 0 then 12 else hours in
  (toString hours ++ ":" ++ minutes ++ " " ++ ampm)%string.

(** The white space and line terminators [trim()] removes, among the code
    points below 256: tab, line feed, vertical tab, form feed, carriage
    return, space and no-break space. *)
Definition is_space (c : ascii) : bool :=
  let n := nat_of_ascii c in
  ((9 <=? n) && (n <=? 13)) || (n =? 32) || (n =? 160).

Fixpoint trim_start (s : string) : string :=
  match s with
  | EmptyString => EmptyString
  | String c s' => if is_space c then trim_start s' else s
  end.

Fixpoint trim_end (s : string) : string :=
  match s with
  | EmptyString => EmptyString
  | String c s' =>
      match trim_end s' with
      | EmptyString => if is_space c then EmptyString else String c EmptyString
      | r => String c r
      end
  end.

(** [s.trim()] *)
Definition trim (s : string) : string := trim_end (trim_start s).

(** [WebSocket.readyState] *)
Inductive readyState : Type := CONNECTING | OPEN | CLOSING | CLOSED.

Record page : Type := {
  message_value : string;
  socket : option readyState;
  frames : list string
}.

(** [sendMessage()] *)
Definition sendMessage (p : page) : page :=
  let message := trim (message_value p) in
  match message, socket p with
  | String _ _, Some OPEN =>
      {| message_value := EmptyString;
         socket := socket p;
         frames := frames p ++ [message] |}
  | _, _ => p
  end.

Definition starts_with_space (s : string) : bool :=
  match s with
  | EmptyString => false
  | String c _ => is_space c
  end.

Fixpoint ends_with_space (s : string) : bool :=
  match s with
  | EmptyString => false
  | String c EmptyString => is_space c
  | String _ s' => ends_with_space s'
  end.

(** The times of a day, and the first of them that [formatTime] shows as [s]. *)
Definition day : list (nat * nat) := list_prod (seq 0 24) (seq 0 60).

Definition shown_as (s : string) : option (nat * nat) :=
  find (fun hm => String.eqb (formatTime (fst hm) (snd hm)) s) day.

End Script.

(** The entries [l] once [k] has been assigned [ws]. *)
Definition rebind (k : string) (ws : WebSocket) (l : list (string * WebSocket))
  : list (string * WebSocket) :=
  map (fun kv => if String.eqb (fst kv) k then (fst kv, ws) else kv) l.

(** While the first write of a broadcast is under way, bo registers again,
    on socket 7. *)
Definition bo_reconnects : World := set_pending [[Registers "bo" 7]] two_clients.


(** * Facts *)

(** ** The dict *)

Section DictFacts.
Variable V : Type.
Implicit Types (d : PyDict.t V) (k : string) (v : V).

Lemma dict_contains_keys d k :
  PyDict.contains d k = true <-> In k (PyDict.keys d).
Proof.
  unfold PyDict.contains, PyDict.keys.
  induction d as [|[[k' v']|] d IH]; simpl.
  - split; [discriminate | tauto].
  - destruct (String.eqb_spec k' k) as [->|Hne].
    + split; auto.
    + rewrite IH. split; [auto | intros [H|H]; [congruence | exact H]].
  - exact IH.
Qed.

Lemma dict_get_items d k v :
  PyDict.get d k = Some v -> In (k, v) (PyDict.items d).
Proof.
  induction d as [|[[k' v']|] d IH]; simpl; intros H.
  - discriminate.
  - destruct (String.eqb_spec k' k) as [->|Hne].
    + injection H as ->. now left.
    + right. auto.
  - auto.
Qed.

Lemma dict_get_setitem_same d k v :
  PyDict.get (PyDict.setitem d k v) k = Some v.
Proof.
  induction d as [|[[k' v']|] d IH]; simpl.
  - now rewrite String.eqb_refl.
  - destruct (String.eqb_spec k' k) as [->|Hne]; simpl.
    + now rewrite String.eqb_refl.
    + destruct (String.eqb_spec k' k); [contradiction | exact IH].
  - exact IH.
Qed.


(** Assigning keeps the keys and their order when the key is present, and
    adds the key at the end when it is not. *)
Lemma dict_keys_setitem d k v :
  PyDict.keys (PyDict.setitem d k v) =
  if PyDict.contains d k then PyDict.keys d else PyDict.keys d ++ [k].
Proof.
  unfold PyDict.contains, PyDict.keys.
  induction d as [|[[k' v']|] d IH]; simpl.
  - reflexivity.
  - destruct (String.eqb_spec k' k) as [->|Hne]; simpl.
    + reflexivity.
    + rewrite IH. now destruct (PyDict.get d k).
  - exact IH.
Qed.

Lemma dict_wf_setitem d k v :
  PyDict.wf d -> PyDict.wf (PyDict.setitem d k v).
Proof.
  unfold PyDict.wf. intros Hwf. rewrite dict_keys_setitem.
  destruct (PyDict.contains d k) eqn:Hc; [exact Hwf |].
  apply NoDup_app; [exact Hwf | repeat constructor; simpl; tauto |].
  intros x Hx [<-|[]].
  apply dict_contains_keys in Hx. congruence.
Qed.

(** The entries of a key, in a dict where it is assigned last. *)
Lemma dict_entries_setitem d k v :
  PyDict.wf d ->
  filter (fun kv => String.eqb (fst kv) k) (PyDict.items (PyDict.setitem d k v))
  = [(k, v)].
Proof.
  unfold PyDict.wf, PyDict.keys.
  induction d as [|[[k' v']|] d IH]; simpl; intros Hwf.
  - now rewrite String.eqb_refl.
  - inversion Hwf as [|? ? Hnotin Hwf']; subst.
    destruct (String.eqb_spec k' k) as [->|Hne]; simpl.
    + rewrite String.eqb_refl. f_equal.
      clear IH Hwf Hwf'. induction (PyDict.items d) as [|[k1 v1] l IHl]; simpl.
      * reflexivity.
      * simpl in Hnotin. destruct (String.eqb_spec k1 k) as [->|Hk1].
        -- exfalso. apply Hnotin. now left.
        -- apply IHl. intros Hin. apply Hnotin. now right.
    + destruct (String.eqb_spec k' k); [contradiction |]. now apply IH.
  - now apply IH.
Qed.

(** Deleting a key that is present succeeds, takes one entry away and
    leaves the others where they were. *)
Lemma dict_delitem_present d k :
  PyDict.contains d k = true ->
  exists d', PyDict.delitem d k = Ok d'
             /\ S (PyDict.ma_used d') = PyDict.ma_used d
             /\ List.length d' = List.length d
             /\ (forall k', k' <> k -> PyDict.get d' k' = PyDict.get d k')
             /\ (PyDict.wf d -> PyDict.wf d' /\ PyDict.contains d' k = false).
Proof.
  unfold PyDict.contains, PyDict.ma_used, PyDict.wf, PyDict.keys.
  induction d as [|[[k' v']|] d IH]; simpl; intros Hc.
  - discriminate.
  - destruct (String.eqb_spec k' k) as [->|Hne].
    + exists (None :: d). simpl. repeat split; auto.
      * intros k' Hk'. destruct (String.eqb_spec k k'); [congruence | reflexivity].
      * now inversion H.
      * inversion H as [|? ? Hnotin _]; subst.
        destruct (PyDict.get d k) eqn:Hg; [|reflexivity].
        exfalso. apply Hnotin. apply dict_get_items in Hg.
        now apply (in_map fst) in Hg.
    + destruct (IH Hc) as (d' & -> & Hu & Hl & Hg & Hw).
      exists (Some (k', v') :: d'). simpl. repeat split; auto.
      * intros k0 Hk0. rewrite (Hg k0 Hk0). reflexivity.
      * inversion H as [|? ? Hnotin Hwf']; subst.
        constructor; [| now apply Hw].
        intros Hin. apply Hnotin.
        change (In k' (PyDict.keys d)). apply dict_contains_keys.
        change (In k' (PyDict.keys d')) in Hin. apply dict_contains_keys in Hin.
        unfold PyDict.contains in *. now rewrite <- (Hg k' Hne).
      * destruct (String.eqb_spec k' k); [contradiction |].
        inversion H; subst. now apply Hw.
  - destruct (IH Hc) as (d' & -> & Hu & Hl & Hg & Hw).
    exists (None :: d'). simpl. repeat split; auto; now apply Hw.
Qed.

(** What an iterator at slot [pos] has still to visit. *)
Lemma dict_next_live pos d :
  match PyDict.next_live pos d with
  | None => PyDict.values (skipn pos d) = []
  | Some (i, v) => PyDict.values (skipn pos d) = v :: PyDict.values (skipn (S i) d)
  end.
Proof.
  unfold PyDict.values.
  revert pos. induction d as [|s d IH]; intros pos; simpl.
  - now destruct pos.
  - destruct pos as [|pos]; simpl.
    + destruct s as [[k v]|]; simpl.
      * reflexivity.
      * specialize (IH 0). simpl in IH.
        destruct (PyDict.next_live 0 d) as [[i v]|]; exact IH.
    + specialize (IH pos).
      destruct (PyDict.next_live pos d) as [[i v]|]; exact IH.
Qed.
End DictFacts.

(** ** The world *)

Lemma after_nil (w : World) : after [] (pending w) w = w.
Proof. destruct w; unfold after; simpl. now rewrite app_nil_r. Qed.

Lemma after_after xs ys p q (w : World) :
  after ys q (after xs p w) = after (xs ++ ys) q w.
Proof. unfold after; simpl. now rewrite app_assoc. Qed.

Lemma set_pending_emit x p (w : World) :
  set_pending p (emit x w) = after [x] p w.
Proof. reflexivity. Qed.

(** An [await] during which nobody else runs. *)
Lemma await_quiet {A} (c : M A) (w : World) r w' :
  c w = (r, w') -> hd [] (pending w') = [] ->
  await_ c w = (r, set_pending (tl (pending w')) w').
Proof. unfold await_. intros -> Hp. now rewrite Hp. Qed.

Lemma quiet_nil n : quiet n [].
Proof. unfold quiet. rewrite firstn_nil. constructor. Qed.

Lemma quiet_S n p : quiet (S n) p -> hd [] p = [] /\ quiet n (tl p).
Proof.
  unfold quiet. destruct p as [|evs p]; simpl.
  - intros _. split; [reflexivity |]. rewrite firstn_nil. constructor.
  - intros H. inversion H; subst. now split.
Qed.

Lemma skipn_tl {A} n (p : list A) : skipn n (tl p) = skipn (S n) p.
Proof. destruct p; simpl; [now destruct n | reflexivity]. Qed.

(** ** The loop of [broadcast] *)

Lemma broadcast_loop_resized len di_used di_pos message (w : World) :
  di_used <> PyDict.ma_used (active_connections w) ->
  broadcast_loop len di_used di_pos message w
  = (Raise (RuntimeError "dictionary changed size during iteration"), w).
Proof.
  intros Hne. apply Nat.eqb_neq in Hne.
  destruct len; simpl; unfold PyDict.iternextvalue; now rewrite Hne.
Qed.

Lemma broadcast_loop_end len di_pos message (w : World) :
  PyDict.values (skipn di_pos (active_connections w)) = [] ->
  broadcast_loop len (PyDict.ma_used (active_connections w)) di_pos message w
  = (Ok tt, w).
Proof.
  intros Hv. pose proof (dict_next_live di_pos (active_connections w)) as Hn.
  destruct len; simpl; unfold PyDict.iternextvalue; rewrite Nat.eqb_refl; simpl;
    destruct (PyDict.next_live di_pos (active_connections w)) as [[i v]|];
    try reflexivity; congruence.
Qed.

(** The loop meets a socket that refuses the write. *)
Lemma broadcast_loop_fault len di_pos message h post e (w : World) :
  PyDict.values (skipn di_pos (active_connections w)) = h :: post ->
  send_fault w h = Some e ->
  broadcast_loop (S len) (PyDict.ma_used (active_connections w)) di_pos message w
  = (Raise e, run_events (hd [] (pending w)) (set_pending (tl (pending w)) w)).
Proof.
  intros Hv Hf. pose proof (dict_next_live di_pos (active_connections w)) as Hn.
  simpl. unfold PyDict.iternextvalue. rewrite Nat.eqb_refl. simpl.
  destruct (PyDict.next_live di_pos (active_connections w)) as [[i v]|];
    [| congruence].
  rewrite Hv in Hn. injection Hn as <- _.
  unfold bind, await_, send_text. now rewrite Hf.
Qed.

(** As long as the sockets accept the write and nobody else runs, the loop
    writes to the values of the dict one after the other. *)
Lemma broadcast_loop_prefix message pre :
  forall post di_pos len (w : World),
    PyDict.values (skipn di_pos (active_connections w)) = pre ++ post ->
    List.length pre <= len ->
    (forall h, In h pre -> send_fault w h = None) ->
    quiet (List.length pre) (pending w) ->
    exists di_pos',
      PyDict.values (skipn di_pos' (active_connections w)) = post
      /\ broadcast_loop len (PyDict.ma_used (active_connections w)) di_pos message w
         = broadcast_loop (len - List.length pre)
             (PyDict.ma_used (active_connections w)) di_pos' message
             (after (sends message pre) (skipn (List.length pre) (pending w)) w).
Proof.
  induction pre as [|h pre IH]; intros post di_pos len w Hv Hlen Hok Hq.
  - exists di_pos. split; [exact Hv |]. simpl.
    rewrite Nat.sub_0_r. now rewrite after_nil.
  - simpl in Hv, Hlen. apply quiet_S in Hq. destruct Hq as [Hhd Hq].
    destruct len as [|len]; [lia |].
    pose proof (dict_next_live di_pos (active_connections w)) as Hn.
    destruct (PyDict.next_live di_pos (active_connections w)) as [[i v]|] eqn:Hnl;
      [| congruence].
    rewrite Hv in Hn. injection Hn as <- Hrest.
    set (w1 := after [Sent h message] (tl (pending w)) w).
    destruct (IH post (S i) len w1) as (di_pos' & Hpost & Heq).
    + simpl. now rewrite <- Hrest.
    + lia.
    + intros h' Hin. simpl. apply Hok. now right.
    + exact Hq.
    + exists di_pos'. split; [exact Hpost |].
      simpl broadcast_loop. unfold PyDict.iternextvalue.
      rewrite Nat.eqb_refl, Hnl. simpl negb. cbv iota.
      unfold bind.
      rewrite (await_quiet (send_text h message) w
                 (r := Ok tt) (w' := emit (Sent h message) w)).
      * rewrite set_pending_emit. simpl pending. fold w1.
        simpl in Heq. rewrite Heq. unfold w1. rewrite after_after.
        simpl pending. now rewrite skipn_tl.
      * unfold send_text. rewrite (Hok h); [reflexivity | now left].
      * exact Hhd.
Qed.

(** ** The other sessions *)

Lemma set_connections_same (w : World) : set_connections (active_connections w) w = w.
Proof. now destruct w. Qed.

Lemma disconnect_unregister k (w : World) :
  disconnect k w = (Ok tt, set_connections (unregister (active_connections w) k) w).
Proof.
  unfold disconnect, unregister.
  destruct (PyDict.contains (active_connections w) k) eqn:Hc.
  - destruct (dict_delitem_present _ _ Hc) as (d' & -> & _). reflexivity.
  - now rewrite set_connections_same.
Qed.

Lemma run_event_apply ev (w : World) :
  run_event ev w = set_connections (apply_event (active_connections w) ev) w.
Proof.
  destruct ev as [k ws|k]; simpl.
  - reflexivity.
  - now rewrite disconnect_unregister.
Qed.

Lemma run_events_apply evs (w : World) :
  run_events evs w = set_connections (apply_events evs (active_connections w)) w.
Proof.
  unfold run_events, apply_events. revert w.
  induction evs as [|ev evs IH]; intros w; simpl.
  - now rewrite set_connections_same.
  - rewrite run_event_apply, IH. reflexivity.
Qed.

Lemma unregister_wf d k : PyDict.wf d -> PyDict.wf (unregister d k).
Proof.
  intros Hwf. unfold unregister.
  destruct (PyDict.contains d k) eqn:Hc; [| exact Hwf].
  destruct (dict_delitem_present _ _ Hc) as (d' & -> & _ & _ & _ & Hw).
  now apply Hw.
Qed.

Lemma unregister_absent d k : PyDict.wf d -> PyDict.contains (unregister d k) k = false.
Proof.
  intros Hwf. unfold unregister.
  destruct (PyDict.contains d k) eqn:Hc; [| exact Hc].
  destruct (dict_delitem_present _ _ Hc) as (d' & -> & _ & _ & _ & Hw).
  now apply Hw.
Qed.

Lemma unregister_other d k k' :
  k' <> k -> PyDict.get (unregister d k) k' = PyDict.get d k'.
Proof.
  intros Hne. unfold unregister.
  destruct (PyDict.contains d k) eqn:Hc; [| reflexivity].
  destruct (dict_delitem_present _ _ Hc) as (d' & -> & _ & _ & Hg & _).
  now apply Hg.
Qed.

Lemma unregister_used d k :
  PyDict.contains d k = true ->
  S (PyDict.ma_used (unregister d k)) = PyDict.ma_used d.
Proof.
  intros Hc. unfold unregister. rewrite Hc.
  destruct (dict_delitem_present _ _ Hc) as (d' & -> & Hu & _). exact Hu.
Qed.

Lemma apply_events_wf evs d : PyDict.wf d -> PyDict.wf (apply_events evs d).
Proof.
  unfold apply_events. revert d.
  induction evs as [|[k ws|k] evs IH]; intros d Hwf; simpl.
  - exact Hwf.
  - apply IH. now apply dict_wf_setitem.
  - apply IH. now apply unregister_wf.
Qed.

(** ** What every run preserves *)

Lemma docs_of_app xs ys : docs_of (xs ++ ys) = docs_of xs ++ docs_of ys.
Proof.
  induction xs as [|[ws|ws text|doc|n] xs IH]; simpl; auto. now rewrite IH.
Qed.

Lemma evolves_refl (w : World) : evolves [] w w.
Proof. unfold evolves. simpl. rewrite !app_nil_r. tauto. Qed.

Lemma evolves_trans xs ys (w1 w2 w3 : World) :
  evolves xs w1 w2 -> evolves ys w2 w3 -> evolves (xs ++ ys) w1 w3.
Proof.
  unfold evolves. intros (Ht & Hc & Hs & Hi & Hf & Hw) (Ht' & Hc' & Hs' & Hi' & Hf' & Hw').
  rewrite Ht', Ht, Hc', Hc, docs_of_app, !app_assoc. repeat split; try congruence. tauto.
Qed.

Lemma evolves_events evs p (w : World) :
  evolves [] w (run_events evs (set_pending p w)).
Proof.
  rewrite run_events_apply. unfold evolves. simpl. rewrite !app_nil_r.
  repeat split. apply apply_events_wf.
Qed.

Lemma evolves_await {A} (c : M A) xs (w : World) :
  evolves xs w (snd (c w)) -> evolves xs w (snd (await_ c w)).
Proof.
  intros H. unfold await_. destruct (c w) as [r w1]. simpl in *.
  rewrite <- (app_nil_r xs). eapply evolves_trans; [exact H |]. apply evolves_events.
Qed.

Lemma evolves_send ws text (w : World) :
  exists xs, evolves xs w (snd (send_text ws text w))
             /\ (xs = [] \/ xs = [Sent ws text]).
Proof.
  unfold send_text. destruct (send_fault w ws).
  - exists []. split; [apply evolves_refl | now left].
  - exists [Sent ws text]. split; [| now right].
    unfold evolves. simpl. rewrite app_nil_r. tauto.
Qed.

Lemma evolves_insert doc (w : World) :
  exists xs, evolves xs w (snd (insert_one doc w))
             /\ (xs = [] \/ xs = [Inserted doc]).
Proof.
  unfold insert_one. destruct (insert_fault w).
  - exists []. split; [apply evolves_refl | now left].
  - exists [Inserted doc]. split; [| now right].
    unfold evolves. simpl. tauto.
Qed.

Lemma evolves_disconnect k (w : World) : evolves [] w (snd (disconnect k w)).
Proof.
  rewrite disconnect_unregister. unfold evolves. simpl. rewrite !app_nil_r.
  repeat split. apply unregister_wf.
Qed.

(** Whatever the schedule and the faults, the loop only writes [message]. *)
Lemma evolves_broadcast_loop message len :
  forall di_used di_pos (w : World),
  exists hs, evolves (sends message hs) w
               (snd (broadcast_loop len di_used di_pos message w)).
Proof.
  induction len as [|len IH]; intros di_used di_pos w; simpl.
  - exists []. destruct (PyDict.iternextvalue _ _ _ _) as [[[v i]|]|e];
      simpl; apply evolves_refl.
  - destruct (PyDict.iternextvalue _ _ _ _) as [[[v i]|]|e]; simpl;
      try (exists []; apply evolves_refl).
    unfold bind.
    destruct (evolves_send v message w) as (xs & Hx & Hxs).
    apply evolves_await in Hx.
    destruct (await_ (send_text v message) w) as [[[]|e] w1] eqn:Ha; simpl in *.
    + destruct (IH di_used i w1) as (hs & Hhs).
      destruct Hxs as [-> | ->].
      * exists hs. apply (evolves_trans Hx Hhs).
      * exists (v :: hs). apply (evolves_trans Hx Hhs).
    + destruct Hxs as [-> | ->]; [exists [] | exists [v]]; exact Hx.
Qed.

Lemma evolves_broadcast message (w : World) :
  exists hs, evolves (sends message hs) w (snd (broadcast message w)).
Proof. apply evolves_broadcast_loop. Qed.

(** ** [broadcast] under particular schedules *)

Lemma values_length (d : PyDict.t WebSocket) :
  List.length (PyDict.values d) = PyDict.ma_used d.
Proof. unfold PyDict.values, PyDict.ma_used. apply length_map. Qed.

Lemma quiet_skipn n p : quiet (S n) p -> hd [] (skipn n p) = [] /\ quiet n p.
Proof.
  revert p. induction n as [|n IH]; intros p Hq.
  - apply quiet_S in Hq. split; [apply Hq | constructor].
  - destruct p as [|evs p]; [split; [reflexivity | apply quiet_nil] |].
    apply quiet_S in Hq. simpl in Hq. destruct Hq as [-> Hq].
    destruct (IH p Hq) as [Hhd Hq']. split; [exact Hhd |].
    unfold quiet in *. simpl. now constructor.
Qed.

Lemma tl_skipn {A} n (p : list A) : tl (skipn n p) = skipn (S n) p.
Proof.
  revert p. induction n as [|n IH]; intros p.
  - now destruct p.
  - destruct p as [|x p]; [reflexivity |]. exact (IH p).
Qed.

Lemma hd_skipn {A} n (p : list (list A)) : hd [] (skipn n p) = nth n p [].
Proof.
  revert p. induction n as [|n IH]; intros p.
  - now destruct p.
  - destruct p as [|x p]; [reflexivity |]. exact (IH p).
Qed.

Lemma quiet_repeat n rest : quiet n (repeat [] n ++ rest).
Proof.
  unfold quiet. rewrite firstn_app, repeat_length, Nat.sub_diag. simpl.
  rewrite app_nil_r, firstn_all2 by (rewrite repeat_length; lia).
  apply Forall_forall. intros x Hx. now apply repeat_spec in Hx.
Qed.

(** Nobody else runs and no socket refuses: every value of the dict gets the
    message, in the dict's order. *)
Lemma broadcast_quiet message (w : World) :
  (forall h, In h (PyDict.values (active_connections w)) -> send_fault w h = None) ->
  quiet (PyDict.ma_used (active_connections w)) (pending w) ->
  broadcast message w
  = (Ok tt, after (sends message (PyDict.values (active_connections w)))
                  (skipn (PyDict.ma_used (active_connections w)) (pending w)) w).
Proof.
  intros Hok Hq. unfold broadcast.
  destruct (@broadcast_loop_prefix message (PyDict.values (active_connections w))
              [] 0 (PyDict.ma_used (active_connections w)) w)
    as (di_pos' & Hpost & ->).
  - simpl. now rewrite app_nil_r.
  - rewrite values_length. lia.
  - exact Hok.
  - now rewrite values_length.
  - rewrite values_length.
    exact (@broadcast_loop_end _ di_pos' message
             (after (sends message (PyDict.values (active_connections w)))
                    (skipn (PyDict.ma_used (active_connections w)) (pending w)) w)
             Hpost).
Qed.

(** The sockets before [h] accept the write, [h] refuses it. *)
Lemma broadcast_fault message pre h post e (w : World) :
  PyDict.values (active_connections w) = pre ++ h :: post ->
  (forall h', In h' pre -> send_fault w h' = None) ->
  send_fault w h = Some e ->
  quiet (S (List.length pre)) (pending w) ->
  broadcast message w
  = (Raise e, after (sends message pre) (skipn (S (List.length pre)) (pending w)) w).
Proof.
  intros Hv Hok Hf Hq. unfold broadcast.
  apply quiet_skipn in Hq. destruct Hq as [Hhd Hq].
  destruct (@broadcast_loop_prefix message pre (h :: post) 0
              (PyDict.ma_used (active_connections w)) w)
    as (di_pos' & Hpost & ->); auto.
  - rewrite <- values_length, Hv, length_app. lia.
  - replace (PyDict.ma_used (active_connections w) - List.length pre)
      with (S (List.length post))
      by (rewrite <- values_length, Hv, length_app; simpl; lia).
    set (w1 := after (sends message pre) (skipn (List.length pre) (pending w)) w).
    pose proof (@broadcast_loop_fault (List.length post) di_pos' message
                  h post e w1 Hpost Hf) as Hfault.
    change (active_connections w1) with (active_connections w) in Hfault.
    rewrite Hfault. unfold w1. simpl pending. rewrite Hhd, tl_skipn. reflexivity.
Qed.

(** One pass of the loop over a socket that accepts the write. *)
Lemma broadcast_loop_step len di_pos message h post (w : World) :
  PyDict.values (skipn di_pos (active_connections w)) = h :: post ->
  send_fault w h = None ->
  exists di_pos',
    broadcast_loop (S len) (PyDict.ma_used (active_connections w)) di_pos message w
    = broadcast_loop len (PyDict.ma_used (active_connections w)) di_pos' message
        (run_events (hd [] (pending w))
           (set_pending (tl (pending w)) (emit (Sent h message) w))).
Proof.
  intros Hv Hf. pose proof (dict_next_live di_pos (active_connections w)) as Hn.
  destruct (PyDict.next_live di_pos (active_connections w)) as [[i v]|] eqn:Hnl;
    [| congruence].
  rewrite Hv in Hn. injection Hn as <- _.
  exists (S i). simpl. unfold PyDict.iternextvalue.
  rewrite Nat.eqb_refl, Hnl. simpl.
  unfold bind, await_, send_text. now rewrite Hf.
Qed.

(** While the message is on its way to [h], the other sessions change the
    size of the dict: the iterator refuses to go on. *)
Lemma broadcast_resized message pre h post (w : World) :
  PyDict.values (active_connections w) = pre ++ h :: post ->
  (forall h', In h' (pre ++ [h]) -> send_fault w h' = None) ->
  quiet (List.length pre) (pending w) ->
  PyDict.ma_used (apply_events (nth (List.length pre) (pending w) [])
                               (active_connections w))
    <> PyDict.ma_used (active_connections w) ->
  broadcast message w
  = (Raise (RuntimeError "dictionary changed size during iteration"),
     set_connections
       (apply_events (nth (List.length pre) (pending w) []) (active_connections w))
       (after (sends message (pre ++ [h]))
              (skipn (S (List.length pre)) (pending w)) w)).
Proof.
  intros Hv Hok Hq Hsize. unfold broadcast.
  destruct (@broadcast_loop_prefix message pre (h :: post) 0
              (PyDict.ma_used (active_connections w)) w)
    as (di_pos' & Hpost & ->); auto.
  - rewrite <- values_length, Hv, length_app. lia.
  - intros h' Hin. apply Hok. apply in_or_app. now left.
  - replace (PyDict.ma_used (active_connections w) - List.length pre)
      with (S (List.length post))
      by (rewrite <- values_length, Hv, length_app; simpl; lia).
    set (w1 := after (sends message pre) (skipn (List.length pre) (pending w)) w).
    destruct (@broadcast_loop_step (List.length post) di_pos' message
                h post w1 Hpost) as (di_pos'' & Hstep).
    + simpl. apply Hok. apply in_or_app. right. now left.
    + change (active_connections w1) with (active_connections w) in Hstep.
      rewrite Hstep. clear Hstep. unfold w1.
      rewrite run_events_apply. simpl active_connections. simpl pending.
      rewrite (hd_skipn (List.length pre) (pending w)), tl_skipn.
      rewrite broadcast_loop_resized.
      * f_equal. unfold set_connections, after, sends. simpl.
        rewrite <- app_assoc, map_app. reflexivity.
      * simpl. intros Heq. apply Hsize. now rewrite <- Heq.
Qed.

Lemma nth_repeat {A} n (x y d : A) rest : nth n (repeat x n ++ y :: rest) d = y.
Proof. rewrite app_nth2, repeat_length, Nat.sub_diag by (rewrite repeat_length; lia). reflexivity. Qed.

Ltac wf_by_computation :=
  unfold PyDict.wf; simpl; repeat constructor; simpl; intuition discriminate.

(** * The claims *)

(** ** The registry *)

(** C8. [ConnectionManager.disconnect] never raises.  Afterwards the identity
    is absent and every other identity has the socket it had; when the
    identity was absent already the world is unchanged; and a second call
    leaves the world the first call produced. *)
Theorem disconnect_tolerates_absent_and_repeated (k : string) (w : World) :
  PyDict.wf (active_connections w) ->
  exists w',
    disconnect k w = (Ok tt, w')
    /\ PyDict.contains (active_connections w') k = false
    /\ (forall k', k' <> k ->
          PyDict.get (active_connections w') k' = PyDict.get (active_connections w) k')
    /\ (PyDict.contains (active_connections w) k = false -> w' = w)
    /\ disconnect k w' = (Ok tt, w').
Proof.
  intros Hwf. rewrite disconnect_unregister.
  eexists. split; [reflexivity |]. simpl.
  pose proof (unregister_absent k Hwf) as Habs.
  repeat split.
  - exact Habs.
  - intros k' Hne. now apply unregister_other.
  - intros Hc. unfold unregister. rewrite Hc. apply set_connections_same.
  - rewrite disconnect_unregister. simpl. f_equal.
    unfold unregister at 1. now rewrite Habs.
Qed.

Lemma disconnect_tolerates_absent_and_repeated_witness :
  exists w',
    disconnect "ann" two_clients = (Ok tt, w')
    /\ PyDict.contains (active_connections w') "ann" = false
    /\ (forall k', k' <> "ann" ->
          PyDict.get (active_connections w') k'
          = PyDict.get (active_connections two_clients) k')
    /\ (PyDict.contains (active_connections two_clients) "ann" = false
        -> w' = two_clients)
    /\ disconnect "ann" w' = (Ok tt, w').
Proof.
  apply (disconnect_tolerates_absent_and_repeated "ann" two_clients).
  wf_by_computation.
Defined.

(** C10. [ConnectionManager.send_personal_message] to an identity that is not
    registered returns without raising and leaves the world as it was: nothing
    is written.  To a registered identity it makes one write, of the given
    text, on that identity's socket: the text is recorded as sent there when
    the socket accepts it, and the socket's exception is raised when it does
    not.  With nobody else running the registry is the same afterwards. *)
Theorem send_personal_message_one_or_none (message k : string) (w : World) :
  (PyDict.get (active_connections w) k = None ->
   send_personal_message message k w = (Ok tt, w))
  /\ (forall ws, PyDict.get (active_connections w) k = Some ws ->
      exists w',
        send_personal_message message k w
        = (match send_fault w ws with None => Ok tt | Some e => Raise e end, w')
        /\ trace w' = trace w ++ match send_fault w ws with
                                 | None => [Sent ws message]
                                 | Some _ => []
                                 end
        /\ (pending w = [] -> active_connections w' = active_connections w)).
Proof.
  unfold send_personal_message. split.
  - now intros ->.
  - intros ws ->. unfold await_, send_text.
    destruct (send_fault w ws) as [e|]; eexists; (split; [reflexivity |]);
      rewrite run_events_apply; simpl.
    + rewrite app_nil_r. split; [reflexivity |]. now intros ->.
    + split; [reflexivity |]. now intros ->.
Qed.

(** ** The broadcast *)

(** C2, as stated, fails.  ann, bo and cy are registered and bo's socket
    refuses the write.  The broadcast raises bo's exception instead of
    catching it, and cy, registered on a healthy socket, is written nothing. *)
Lemma broadcast_isolation_counterexample :
  PyDict.values (active_connections bo_refuses) = [1; 2; 3]
  /\ send_fault bo_refuses 2 = Some closed_socket
  /\ send_fault bo_refuses 3 = None
  /\ fst (broadcast "hi" bo_refuses) = Raise closed_socket
  /\ recipients "hi" (trace (snd (broadcast "hi" bo_refuses))) = [1].
Proof. repeat split. Qed.

(** C2, amended.  A socket that refuses the write ends the broadcast with its
    exception: the sockets before it in the registry's order have been written
    the message, the sockets after it are written nothing, and the registry is
    what it was (the failed entry stays). *)
Theorem broadcast_stops_at_refused_write
        (message : string) (pre : list WebSocket) (h : WebSocket)
        (post : list WebSocket) (e : exn) (w : World) :
  PyDict.values (active_connections w) = pre ++ h :: post ->
  (forall h', In h' pre -> send_fault w h' = None) ->
  send_fault w h = Some e ->
  quiet (S (List.length pre)) (pending w) ->
  exists w',
    broadcast message w = (Raise e, w')
    /\ trace w' = trace w ++ sends message pre
    /\ active_connections w' = active_connections w.
Proof.
  intros Hv Hok Hf Hq.
  rewrite (@broadcast_fault message pre h post e w Hv Hok Hf Hq).
  eexists. split; [reflexivity |]. split; reflexivity.
Qed.

Lemma broadcast_stops_at_refused_write_witness :
  exists w',
    broadcast "hi" bo_refuses = (Raise closed_socket, w')
    /\ trace w' = trace bo_refuses ++ sends "hi" [1]
    /\ active_connections w' = active_connections bo_refuses.
Proof.
  apply (@broadcast_stops_at_refused_write "hi" [1] 2 [3] closed_socket bo_refuses).
  - reflexivity.
  - intros h' [<- | []]. reflexivity.
  - reflexivity.
  - apply quiet_nil.
Defined.

(** C4, as stated, fails.  ann, bo and cy are registered on healthy sockets.
    While the message is on its way to ann, cy's handler unregisters cy.  The
    broadcast raises [RuntimeError], and bo, still registered, is written
    nothing. *)
Lemma unregister_during_broadcast_counterexample :
  PyDict.values (active_connections cy_leaves) = [1; 2; 3]
  /\ fst (broadcast "hi" cy_leaves)
     = Raise (RuntimeError "dictionary changed size during iteration")
  /\ PyDict.get (active_connections (snd (broadcast "hi" cy_leaves))) "bo" = Some 2
  /\ send_fault cy_leaves 2 = None
  /\ recipients "hi" (trace (snd (broadcast "hi" cy_leaves))) = [1].
Proof. repeat split. Qed.

(** C4, amended.  When an identity that is registered is unregistered while
    the broadcast is suspended in a write (and nothing else touches the
    registry in that broadcast), the write under way completes and the
    broadcast then raises [RuntimeError]: the sockets up to that one have the
    message, no later socket is written to, and the identity is gone from the
    registry. *)
Theorem unregister_during_broadcast_raises
        (message : string) (pre : list WebSocket) (h : WebSocket)
        (post : list WebSocket) (k : string) (rest : list (list event)) (w : World) :
  PyDict.values (active_connections w) = pre ++ h :: post ->
  (forall h', In h' (pre ++ [h]) -> send_fault w h' = None) ->
  pending w = repeat [] (List.length pre) ++ [Unregisters k] :: rest ->
  PyDict.contains (active_connections w) k = true ->
  exists w',
    broadcast message w
    = (Raise (RuntimeError "dictionary changed size during iteration"), w')
    /\ trace w' = trace w ++ sends message (pre ++ [h])
    /\ active_connections w' = unregister (active_connections w) k.
Proof.
  intros Hv Hok Hp Hc.
  assert (Hnth : nth (List.length pre) (pending w) [] = [Unregisters k])
    by (rewrite Hp; apply nth_repeat).
  rewrite (@broadcast_resized message pre h post w Hv Hok).
  - rewrite Hnth. eexists. split; [reflexivity |]. split; reflexivity.
  - rewrite Hp. apply quiet_repeat.
  - rewrite Hnth. simpl. pose proof (unregister_used _ _ Hc). lia.
Qed.

Lemma unregister_during_broadcast_raises_witness :
  exists w',
    broadcast "hi" cy_leaves
    = (Raise (RuntimeError "dictionary changed size during iteration"), w')
    /\ trace w' = trace cy_leaves ++ sends "hi" ([] ++ [1])
    /\ active_connections w' = unregister (active_connections cy_leaves) "cy".
Proof.
  apply (@unregister_during_broadcast_raises "hi" [] 1 [2; 3] "cy" [] cy_leaves).
  - reflexivity.
  - intros h' [<- | []]. reflexivity.
  - reflexivity.
  - reflexivity.
Defined.

(** ** The session handler *)

Section RelayFacts.
Variable json_dumps : Doc -> string.

(** Whatever the schedule and the faults, one pass of the loop inserts the
    document of the message at most once and writes nothing but its
    serialisation. *)
Lemma evolves_iteration client_id t (w : World) :
  exists xs,
    evolves xs w (snd (iteration json_dumps client_id t w))
    /\ match incoming t with
       | Ok data =>
           exists ins hs,
             xs = ins ++ sends (json_dumps (dict (built client_id t data))) hs
             /\ (ins = [] \/ ins = [Inserted (dict (built client_id t data))])
       | Raise _ => xs = []
       end.
Proof.
  unfold iteration, bind.
  assert (Hrecv : evolves [] w (snd (await_ (receive_text t) w)))
    by (apply evolves_await; apply evolves_refl).
  assert (Hin : fst (await_ (receive_text t) w) = incoming t) by reflexivity.
  destruct (await_ (receive_text t) w) as [r wA]. simpl in Hrecv, Hin. subst r.
  destruct (incoming t) as [data|e].
  - fold (built client_id t data). unfold add_to_history.
    destruct (evolves_insert (dict (built client_id t data)) wA) as (ins & Hins & Hcases).
    apply evolves_await in Hins.
    destruct (await_ (insert_one (dict (built client_id t data))) wA)
      as [[[]|e] wB]; simpl in Hins.
    + destruct (evolves_broadcast (json_dumps (dict (built client_id t data))) wB)
        as (hs & Hhs).
      exists (ins ++ sends (json_dumps (dict (built client_id t data))) hs).
      split; [| now exists ins, hs].
      change (ins ++ sends (json_dumps (dict (built client_id t data))) hs)
        with ([] ++ (ins ++ sends (json_dumps (dict (built client_id t data))) hs)).
      exact (evolves_trans Hrecv (evolves_trans Hins Hhs)).
    + exists ins. split.
      * exact (evolves_trans Hrecv Hins).
      * exists ins, []. simpl. rewrite app_nil_r. now split.
  - exists []. now split.
Qed.

Lemma no_query_iteration client_id t (w : World) :
  exists xs,
    evolves xs w (snd (iteration json_dumps client_id t w))
    /\ forallb (fun x => negb (is_query x)) xs = true.
Proof.
  destruct (evolves_iteration client_id t w) as (xs & Hev & Hshape).
  exists xs. split; [exact Hev |].
  destruct (incoming t) as [data|e]; [| now subst].
  destruct Hshape as (ins & hs & -> & Hins).
  rewrite forallb_app. apply andb_true_intro. split.
  - now destruct Hins as [-> | ->].
  - clear Hev. unfold sends. induction hs as [|h hs IH]; simpl; [reflexivity | exact IH].
Qed.

(** A run of the handler's loop, whatever the schedule and the faults:
    the I/O it performs holds no query of the collection. *)
Lemma no_query_serve client_id turns :
  forall w : World,
  exists xs,
    evolves xs w (snd (serve json_dumps client_id turns w))
    /\ forallb (fun x => negb (is_query x)) xs = true.
Proof.
  induction turns as [|t turns IH]; intros w; simpl.
  - exists []. split; [apply evolves_refl | reflexivity].
  - destruct (no_query_iteration client_id t w) as (xs & Hev & Hxs).
    destruct (iteration json_dumps client_id t w) as [[[]|e] w1]; simpl in Hev.
    + destruct (IH w1) as (ys & Hev' & Hys).
      exists (xs ++ ys). split; [exact (evolves_trans Hev Hev') |].
      rewrite forallb_app. now rewrite Hxs, Hys.
    + destruct (is_disconnect e).
      * pose proof (evolves_disconnect client_id w1) as Hd.
        exists xs. split; [| exact Hxs].
        rewrite <- (app_nil_r xs).
        destruct (disconnect client_id w1) as [[[]|e'] w2]; simpl in *;
          exact (evolves_trans Hev Hd).
      * exists xs. now split.
Qed.

Lemma evolves_connect client_id websocket (w : World) :
  evolves [Accepted websocket] w (snd (connect client_id websocket w)).
Proof.
  unfold connect, bind, await_, accept, assign.
  rewrite run_events_apply. unfold evolves. simpl. rewrite app_nil_r.
  repeat split. intros Hwf. apply dict_wf_setitem. now apply apply_events_wf.
Qed.

Lemma connect_returns client_id websocket (w : World) :
  fst (connect client_id websocket w) = Ok tt.
Proof. reflexivity. Qed.

Lemma no_query_endpoint websocket client_id turns (w : World) :
  exists xs,
    evolves xs w (snd (websocket_endpoint json_dumps websocket client_id turns w))
    /\ forallb (fun x => negb (is_query x)) xs = true.
Proof.
  unfold websocket_endpoint.
  pose proof (evolves_connect client_id websocket w) as Hc.
  pose proof (connect_returns client_id websocket w) as Hr.
  destruct (connect client_id websocket w) as [[[]|e] w1]; simpl in Hc, Hr;
    [| discriminate].
  destruct (no_query_serve client_id turns w1) as (xs & Hev & Hxs).
  exists ([Accepted websocket] ++ xs). split.
  - exact (evolves_trans Hc Hev).
  - exact Hxs.
Qed.

(** One pass in a healthy environment: the events of the two suspensions
    before the broadcast reach the registry, and the broadcast, with nobody
    else running, writes to what the registry then holds. *)
Lemma iteration_run client_id t data (w : World) :
  incoming t = Ok data ->
  insert_fault w = None ->
  (forall h,
      In h (PyDict.values
              (apply_events (hd [] (tl (pending w)))
                 (apply_events (hd [] (pending w)) (active_connections w)))) ->
      send_fault w h = None) ->
  quiet (PyDict.ma_used
           (apply_events (hd [] (tl (pending w)))
              (apply_events (hd [] (pending w)) (active_connections w))))
        (tl (tl (pending w))) ->
  iteration json_dumps client_id t w
  = (Ok tt,
     {| active_connections :=
          apply_events (hd [] (tl (pending w)))
            (apply_events (hd [] (pending w)) (active_connections w));
        messages_collection :=
          messages_collection w ++ [dict (built client_id t data)];
        send_fault := send_fault w;
        insert_fault := insert_fault w;
        find_fault := find_fault w;
        pending :=
          skipn (PyDict.ma_used
                   (apply_events (hd [] (tl (pending w)))
                      (apply_events (hd [] (pending w)) (active_connections w))))
                (tl (tl (pending w)));
        trace :=
          trace w ++ Inserted (dict (built client_id t data))
                  :: sends (json_dumps (dict (built client_id t data)))
                       (PyDict.values
                          (apply_events (hd [] (tl (pending w)))
                             (apply_events (hd [] (pending w))
                                (active_connections w)))) |}).
Proof.
  intros Hin Hins Hok Hq.
  unfold iteration, bind, await_ at 1, receive_text. rewrite Hin.
  unfold add_to_history, await_, insert_one.
  rewrite !run_events_apply. simpl. rewrite Hins.
  rewrite !run_events_apply. simpl.
  rewrite broadcast_quiet; [| exact Hok | exact Hq].
  unfold after, built. simpl. rewrite <- app_assoc, ?Hins. reflexivity.
Qed.
End RelayFacts.

(** ** The order of the history *)

Lemma ascii_compare_lt_trans a b c :
  Ascii.compare a b = Lt -> Ascii.compare b c = Lt -> Ascii.compare a c = Lt.
Proof.
  unfold Ascii.compare. rewrite !N.compare_lt_iff. apply N.lt_trans.
Qed.

Lemma string_leb_trans : forall a b c,
  String.leb a b = true -> String.leb b c = true -> String.leb a c = true.
Proof.
  unfold String.leb.
  induction a as [|x a IH]; intros [|y b] [|z c]; simpl; try congruence.
  destruct (Ascii.compare x y) eqn:Hxy; try congruence;
    destruct (Ascii.compare y z) eqn:Hyz; try congruence.
  - apply Ascii.compare_eq_iff in Hxy, Hyz. subst.
    rewrite (proj2 (N.compare_eq_iff _ _) eq_refl : Ascii.compare z z = Eq).
    apply IH.
  - apply Ascii.compare_eq_iff in Hxy. subst. now rewrite Hyz.
  - apply Ascii.compare_eq_iff in Hyz. subst. now rewrite Hxy.
  - now rewrite (ascii_compare_lt_trans _ _ _ Hxy Hyz).
Qed.

Lemma key_leb_total a b : key_leb a b = true \/ key_leb b a = true.
Proof.
  destruct a as [x|], b as [y|]; simpl; auto. apply String.leb_total.
Qed.

Lemma key_leb_trans a b c :
  key_leb a b = true -> key_leb b c = true -> key_leb a c = true.
Proof.
  destruct a as [x|], b as [y|], c as [z|]; simpl; try congruence.
  apply string_leb_trans.
Qed.

Lemma insert_desc_perm x l : Permutation (x :: l) (insert_desc "timestamp" x l).
Proof.
  induction l as [|y l IH]; simpl.
  - reflexivity.
  - destruct (desc_leb "timestamp" x y); [reflexivity |].
    rewrite perm_swap. now constructor.
Qed.

Lemma sort_desc_perm l : Permutation l (sort_desc "timestamp" l).
Proof.
  induction l as [|x l IH]; simpl.
  - constructor.
  - rewrite <- insert_desc_perm. now constructor.
Qed.

Lemma insert_desc_sorted x l :
  StronglySorted newest_first l ->
  StronglySorted newest_first (insert_desc "timestamp" x l).
Proof.
  induction l as [|y l IH]; simpl; intros Hs.
  - repeat constructor.
  - inversion Hs as [|? ? Hs' Hall]; subst.
    destruct (desc_leb "timestamp" x y) eqn:Hxy.
    + constructor; [exact Hs |]. constructor; [exact Hxy |].
      eapply Forall_impl; [| exact Hall].
      intros z Hyz. unfold newest_first, desc_leb in *.
      eapply key_leb_trans; eassumption.
    + constructor; [now apply IH |].
      apply (Permutation_Forall (insert_desc_perm x l)).
      constructor; [| exact Hall].
      unfold newest_first, desc_leb in *.
      destruct (key_leb_total (field "timestamp" y) (field "timestamp" x)); congruence.
Qed.

Lemma sort_desc_sorted l : StronglySorted newest_first (sort_desc "timestamp" l).
Proof.
  induction l as [|x l IH]; simpl; [constructor | now apply insert_desc_sorted].
Qed.

Lemma firstn_subset {A} n (l : list A) : incl (firstn n l) l.
Proof.
  intros x Hx. rewrite <- (firstn_skipn n l). apply in_or_app. now left.
Qed.

Lemma firstn_sorted n l :
  StronglySorted newest_first l -> StronglySorted newest_first (firstn n l).
Proof.
  revert l. induction n as [|n IH]; intros [|x l] Hs; simpl; try constructor.
  - inversion Hs; subst. now apply IH.
  - inversion Hs as [|? ? _ Hall]; subst.
    rewrite Forall_forall in *. intros y Hy. apply Hall.
    exact (firstn_subset n l y Hy).
Qed.

Lemma cursor_limit_sorted n l :
  StronglySorted newest_first l -> StronglySorted newest_first (cursor_limit n l).
Proof.
  intros Hs. unfold cursor_limit. destruct (Z.eqb n 0); [exact Hs |].
  now apply firstn_sorted.
Qed.

Lemma cursor_limit_incl n l : incl (cursor_limit n l) l.
Proof.
  unfold cursor_limit. destruct (Z.eqb n 0); [apply incl_refl | apply firstn_subset].
Qed.

(** ** With nobody else running *)

Lemma idle_await {A} (c : M A) (w : World) :
  active_connections (snd (c w)) = active_connections w ->
  pending (snd (c w)) = [] ->
  active_connections (snd (await_ c w)) = active_connections w
  /\ pending (snd (await_ c w)) = [].
Proof.
  unfold await_. destruct (c w) as [r w1]. simpl. intros Ha Hp.
  rewrite Hp. simpl. now split.
Qed.

Lemma idle_send ws text (w : World) :
  pending w = [] ->
  active_connections (snd (await_ (send_text ws text) w)) = active_connections w
  /\ pending (snd (await_ (send_text ws text) w)) = [].
Proof.
  intros Hp. apply idle_await; unfold send_text; now destruct (send_fault w ws).
Qed.

Lemma idle_insert doc (w : World) :
  pending w = [] ->
  active_connections (snd (await_ (insert_one doc) w)) = active_connections w
  /\ pending (snd (await_ (insert_one doc) w)) = [].
Proof.
  intros Hp. apply idle_await; unfold insert_one; now destruct (insert_fault w).
Qed.

Lemma idle_broadcast_loop message len :
  forall di_used di_pos (w : World),
    pending w = [] ->
    active_connections (snd (broadcast_loop len di_used di_pos message w))
    = active_connections w
    /\ pending (snd (broadcast_loop len di_used di_pos message w)) = [].
Proof.
  induction len as [|len IH]; intros di_used di_pos w Hp; simpl.
  - destruct (PyDict.iternextvalue _ _ _ _) as [[[v i]|]|e]; simpl; now split.
  - destruct (PyDict.iternextvalue _ _ _ _) as [[[v i]|]|e]; simpl; try now split.
    unfold bind. destruct (idle_send v message w Hp) as [Ha Hp'].
    destruct (await_ (send_text v message) w) as [[[]|e] w1]; simpl in *.
    + destruct (IH di_used i w1 Hp') as [Ha' Hp'']. split; congruence.
    + now split.
Qed.



(** ** An identity registers again while the broadcast runs *)

Lemma dict_items_app (a b : PyDict.t WebSocket) :
  PyDict.items (a ++ b) = PyDict.items a ++ PyDict.items b.
Proof.
  induction a as [|[kv|] a IH]; simpl; [reflexivity | now rewrite IH | exact IH].
Qed.

Lemma dict_items_split n (d : PyDict.t WebSocket) :
  PyDict.items (firstn n d) ++ PyDict.items (skipn n d) = PyDict.items d.
Proof. now rewrite <- dict_items_app, firstn_skipn. Qed.

Lemma dict_wf_skipn n (d : PyDict.t WebSocket) :
  PyDict.wf d -> PyDict.wf (skipn n d).
Proof.
  unfold PyDict.wf, PyDict.keys. rewrite <- (dict_items_split n d), map_app.
  apply NoDup_app_remove_l.
Qed.

Lemma dict_keys_skipn n (d : PyDict.t WebSocket) k :
  In k (PyDict.keys (skipn n d)) -> In k (PyDict.keys d).
Proof.
  unfold PyDict.keys. rewrite <- (dict_items_split n d), map_app.
  intros H. apply in_or_app. now right.
Qed.

Lemma suffix_unique {A} (a a' b b' : list A) :
  a ++ b = a' ++ b' -> List.length b = List.length b' -> b = b'.
Proof.
  intros Heq Hlen.
  assert (Hla : List.length a = List.length a').
  { apply (f_equal (@List.length A)) in Heq. rewrite !length_app in Heq. lia. }
  clear Hlen. revert a' Heq Hla.
  induction a as [|x a IH]; intros [|x' a'] Heq Hla; simpl in *;
    try discriminate; [exact Heq |].
  injection Heq as _ Heq. apply (IH a' Heq). lia.
Qed.

(** What an iterator at slot [pos] has still to visit, with the keys. *)
Lemma dict_next_live_items pos (d : PyDict.t WebSocket) :
  match PyDict.next_live pos d with
  | None => PyDict.items (skipn pos d) = []
  | Some (i, v) =>
      exists k, PyDict.items (skipn pos d) = (k, v) :: PyDict.items (skipn (S i) d)
  end.
Proof.
  revert pos. induction d as [|s d IH]; intros pos; simpl.
  - now destruct pos.
  - destruct pos as [|pos]; simpl.
    + destruct s as [[k v]|]; simpl.
      * now exists k.
      * specialize (IH 0). simpl in IH.
        destruct (PyDict.next_live 0 d) as [[i v]|]; exact IH.
    + specialize (IH pos).
      destruct (PyDict.next_live pos d) as [[i v]|]; exact IH.
Qed.

(** Assigning to a key whose slot lies at [n] or later leaves the slots
    before [n] alone. *)
Lemma dict_skipn_setitem n :
  forall (d : PyDict.t WebSocket) k v,
    PyDict.wf d ->
    In k (PyDict.keys (skipn n d)) ->
    skipn n (PyDict.setitem d k v) = PyDict.setitem (skipn n d) k v.
Proof.
  induction n as [|n IH]; intros d k v Hwf Hin; [reflexivity |].
  destruct d as [|[[k' v']|] d]; simpl in *; [contradiction | |].
  - unfold PyDict.wf, PyDict.keys in Hwf. simpl in Hwf.
    inversion Hwf as [|? ? Hnotin Hwf']; subst.
    destruct (String.eqb_spec k' k) as [->|Hne].
    + exfalso. apply Hnotin. exact (dict_keys_skipn n d k Hin).
    + simpl. now apply IH.
  - now apply IH.
Qed.

Lemma rebind_absent k ws (l : list (string * WebSocket)) :
  ~ In k (map fst l) -> rebind k ws l = l.
Proof.
  unfold rebind. induction l as [|[k1 v1] l IH]; simpl; intros Hnotin;
    [reflexivity |].
  destruct (String.eqb_spec k1 k) as [->|Hne].
  - exfalso. apply Hnotin. now left.
  - f_equal. apply IH. intros Hin. apply Hnotin. now right.
Qed.

Lemma dict_items_setitem_present (d : PyDict.t WebSocket) k ws :
  PyDict.wf d ->
  In k (PyDict.keys d) ->
  PyDict.items (PyDict.setitem d k ws) = rebind k ws (PyDict.items d).
Proof.
  unfold PyDict.wf, PyDict.keys, rebind.
  induction d as [|[[k' v']|] d IH]; simpl; intros Hwf Hin.
  - contradiction.
  - inversion Hwf as [|? ? Hnotin Hwf']; subst.
    destruct (String.eqb_spec k' k) as [->|Hne]; simpl.
    + rewrite ?String.eqb_refl. f_equal. symmetry.
      exact (@rebind_absent k ws (PyDict.items d) Hnotin).
    + destruct (String.eqb_spec k' k) as [|_]; [contradiction |].
      f_equal. apply IH; [exact Hwf' |]. destruct Hin as [Hk | Hin]; [contradiction | exact Hin].
  - now apply IH.
Qed.

Lemma dict_used_setitem_present (d : PyDict.t WebSocket) k v :
  PyDict.contains d k = true ->
  PyDict.ma_used (PyDict.setitem d k v) = PyDict.ma_used d.
Proof.
  intros Hc.
  assert (Hk : List.length (PyDict.keys (PyDict.setitem d k v))
               = List.length (PyDict.keys d))
    by now rewrite dict_keys_setitem, Hc.
  unfold PyDict.keys in Hk. rewrite !length_map in Hk. exact Hk.
Qed.

Lemma skipn_repeat_app {A} n (x : A) rest : skipn n (repeat x n ++ rest) = rest.
Proof.
  rewrite skipn_app, repeat_length, Nat.sub_diag. simpl.
  now rewrite skipn_all2 by (rewrite repeat_length; lia).
Qed.

Lemma rebind_length k ws (l : list (string * WebSocket)) :
  List.length (rebind k ws l) = List.length l.
Proof. unfold rebind. apply length_map. Qed.

Lemma broadcast_loop_step_at len di_pos message i h (w : World) :
  PyDict.next_live di_pos (active_connections w) = Some (i, h) ->
  send_fault w h = None ->
  broadcast_loop (S len) (PyDict.ma_used (active_connections w)) di_pos message w
  = broadcast_loop len (PyDict.ma_used (active_connections w)) (S i) message
      (run_events (hd [] (pending w))
         (set_pending (tl (pending w)) (emit (Sent h message) w))).
Proof.
  intros Hnl Hf. simpl. unfold PyDict.iternextvalue.
  rewrite Nat.eqb_refl, Hnl. simpl.
  unfold bind, await_, send_text. now rewrite Hf.
Qed.

(** While the message is on its way to [h], an identity whose entry the loop
    has not reached registers again, on [ws]; nobody else runs before or
    after.  The loop goes on and writes to [ws] where the identity's earlier
    socket stood. *)
Lemma broadcast_rebound message ipre kh h ipost k ws rest (w : World) :
  PyDict.wf (active_connections w) ->
  PyDict.items (active_connections w) = ipre ++ (kh, h) :: ipost ->
  In k (map fst ipost) ->
  (forall h', In h' (map snd ipre ++ h :: map snd (rebind k ws ipost)) ->
              send_fault w h' = None) ->
  pending w = repeat [] (List.length ipre) ++ [Registers k ws] :: rest ->
  quiet (List.length ipost) rest ->
  exists w',
    broadcast message w = (Ok tt, w')
    /\ trace w'
       = trace w ++ sends message (map snd ipre ++ h :: map snd (rebind k ws ipost))
    /\ active_connections w' = PyDict.setitem (active_connections w) k ws.
Proof.
  intros Hwf Hitems Hk Hok Hp Hq.
  assert (Hv : PyDict.values (active_connections w)
               = map snd ipre ++ h :: map snd ipost).
  { unfold PyDict.values. rewrite Hitems, map_app. reflexivity. }
  assert (Hused : PyDict.ma_used (active_connections w)
                  = List.length ipre + S (List.length ipost)).
  { unfold PyDict.ma_used. rewrite Hitems, length_app. reflexivity. }
  unfold broadcast.
  destruct (@broadcast_loop_prefix message (map snd ipre) (h :: map snd ipost) 0
              (PyDict.ma_used (active_connections w)) w)
    as (p1 & Hp1 & ->).
  - exact Hv.
  - rewrite length_map. lia.
  - intros h' Hin. apply Hok. apply in_or_app. now left.
  - rewrite length_map, Hp. apply quiet_repeat.
  - rewrite length_map, Hp, skipn_repeat_app.
    replace (PyDict.ma_used (active_connections w) - List.length ipre)
      with (S (List.length ipost)) by lia.
    set (w1 := after (sends message (map snd ipre)) ([Registers k ws] :: rest) w).
    change (active_connections w) with (active_connections w1) in Hp1 |- *.
    pose proof (dict_next_live p1 (active_connections w1)) as Hn.
    pose proof (dict_next_live_items p1 (active_connections w1)) as Hni.
    destruct (PyDict.next_live p1 (active_connections w1)) as [[i v]|] eqn:Hnl;
      [| congruence].
    rewrite Hp1 in Hn. injection Hn as <- Hrest.
    destruct Hni as (k0 & Hni).
    assert (Hipost : PyDict.items (skipn (S i) (active_connections w1)) = ipost).
    { apply (@suffix_unique _ (PyDict.items (firstn (S i) (active_connections w1)))
               (ipre ++ [(kh, h)])).
      - rewrite dict_items_split, <- app_assoc. exact Hitems.
      - apply (f_equal (@List.length WebSocket)) in Hrest.
        unfold PyDict.values in Hrest. rewrite !length_map in Hrest.
        symmetry. exact Hrest. }
    assert (Hkin : In k (PyDict.keys (skipn (S i) (active_connections w1))))
      by (unfold PyDict.keys; now rewrite Hipost).
    assert (Hc : PyDict.contains (active_connections w1) k = true)
      by (apply dict_contains_keys; exact (dict_keys_skipn _ _ _ Hkin)).
    assert (Hh : send_fault w1 h = None)
      by (apply Hok; apply in_or_app; right; now left).
    pose proof (@broadcast_loop_step_at (List.length ipost) p1 message i h w1 Hnl Hh)
      as Hstep.
    rewrite Hstep. clear Hstep.
    change (active_connections w1) with (active_connections w) in Hipost, Hkin, Hc.
    rewrite run_events_apply. unfold w1. simpl pending. simpl hd. simpl tl.
    simpl apply_events. simpl active_connections.
    set (w2 := set_connections _ _).
    assert (Hac2 : active_connections w2
                   = PyDict.setitem (active_connections w) k ws) by reflexivity.
    replace (PyDict.ma_used (active_connections w))
      with (PyDict.ma_used (active_connections w2))
      by (rewrite Hac2; now apply dict_used_setitem_present).
    destruct (@broadcast_loop_prefix message (map snd (rebind k ws ipost)) [] (S i)
                (List.length ipost) w2)
      as (p2 & Hp2 & ->).
    + rewrite app_nil_r, Hac2. unfold PyDict.values.
      rewrite (@dict_skipn_setitem (S i) (active_connections w) k ws Hwf Hkin).
      rewrite dict_items_setitem_present.
      * now rewrite Hipost.
      * now apply dict_wf_skipn.
      * exact Hkin.
    + now rewrite length_map, rebind_length.
    + intros h' Hin. apply Hok. apply in_or_app. right. now right.
    + rewrite length_map, rebind_length. exact Hq.
    + set (w3 := after _ _ w2).
      pose proof (@broadcast_loop_end
                    (List.length ipost - List.length (map snd (rebind k ws ipost)))
                    p2 message w3 Hp2) as Hend.
      change (active_connections w3) with (active_connections w2) in Hend.
      rewrite Hend. unfold w3, w2.
      eexists. split; [reflexivity |]. split; [| exact Hac2].
      simpl. unfold sends. rewrite !map_app, <- !app_assoc. reflexivity.
Qed.

Section HandlerClaims.
Variable json_dumps : Doc -> string.

Lemma idle_iteration client_id t (w : World) :
  pending w = [] ->
  active_connections (snd (iteration json_dumps client_id t w)) = active_connections w
  /\ pending (snd (iteration json_dumps client_id t w)) = [].
Proof.
  intros Hp. unfold iteration, bind.
  assert (Hr : active_connections (snd (await_ (receive_text t) w)) = active_connections w
               /\ pending (snd (await_ (receive_text t) w)) = [])
    by (apply idle_await; [reflexivity | exact Hp]).
  destruct (await_ (receive_text t) w) as [[data|e] wA]; simpl in Hr;
    [| exact Hr].
  destruct Hr as [Ha Hp']. unfold add_to_history.
  destruct (idle_insert (dict (built client_id t data)) wA Hp') as [Ha' Hp''].
  unfold built in *.
  destruct (await_ (insert_one _) wA) as [[[]|e] wB]; simpl in *.
  - destruct (idle_broadcast_loop
                (json_dumps (dict {| client_id := client_id; content := data;
                                     timestamp := now t |}))
                (PyDict.ma_used (active_connections wB))
                (PyDict.ma_used (active_connections wB)) 0 wB Hp'')
      as [Ha'' Hp'''].
    unfold broadcast. split; congruence.
  - split; congruence.
Qed.



(** C1, amended.  When the insert into the collection fails, the exception
    is neither caught nor logged in [add_to_history] or in the loop: the
    pass ends with it before the broadcast, so nothing is written to any
    socket and nothing is added to the collection; the handler itself does
    nothing to the registry; and unless the exception is
    [WebSocketDisconnect] it leaves the handler, whose loop is over. *)
Theorem failed_insert_ends_the_pass
        (client_id : string) (t : turn) (data : string) (e : exn) (w : World) :
  incoming t = Ok data ->
  insert_fault w = Some e ->
  exists w',
    iteration json_dumps client_id t w = (Raise e, w')
    /\ trace w' = trace w
    /\ messages_collection w' = messages_collection w
    /\ active_connections w'
       = apply_events (hd [] (tl (pending w)))
           (apply_events (hd [] (pending w)) (active_connections w))
    /\ (is_disconnect e = false ->
        forall turns,
          serve json_dumps client_id (t :: turns) w = (Propagated e, w')).
Proof.
  intros Hin Hins.
  assert (Hit : iteration json_dumps client_id t w
                = (Raise e,
                   run_events (hd [] (tl (pending w)))
                     (set_pending (tl (tl (pending w)))
                        (run_events (hd [] (pending w))
                           (set_pending (tl (pending w)) w))))).
  { unfold iteration, bind, await_ at 1, receive_text. rewrite Hin.
    unfold add_to_history, await_, insert_one.
    rewrite !run_events_apply. simpl. rewrite Hins.
    rewrite !run_events_apply. reflexivity. }
  eexists. split; [exact Hit |].
  rewrite !run_events_apply. simpl. repeat split.
  intros Hnd turns. simpl. rewrite Hit, Hnd.
  rewrite !run_events_apply. reflexivity.
Qed.

(** C3, amended.  The broadcast walks the live registry, not a copy of it,
    and it starts only once the insert has been awaited.  In a healthy
    environment:
    - where [e0] is what the other sessions do while the handler waits for
      the text and [e1] what they do while the insert is under way, and
      nobody touches the registry during the broadcast itself, the message is
      written to exactly the sockets the registry holds when the broadcast
      starts, that is after [e1], in the registry's order: a connection
      registered by [e1], after the text was received, receives the message;
    - when, while the broadcast is suspended in the write to [h], an identity
      whose entry the loop has not reached yet registers again, on [ws], and
      nobody runs otherwise, the broadcast goes on over the registry as it
      then is: the message is written to [ws] where the identity's earlier
      socket stood in the order. *)
Theorem broadcast_walks_the_live_registry
        (client_id : string) (t : turn) (data : string)
        (e0 e1 : list event) (rest : list (list event))
        (message : string) (ipre : list (string * WebSocket)) (kh : string)
        (h : WebSocket) (ipost : list (string * WebSocket))
        (k : string) (ws : WebSocket) (rest' : list (list event)) (w : World) :
  (incoming t = Ok data ->
   insert_fault w = None ->
   pending w = e0 :: e1 :: rest ->
   (forall h',
       In h' (PyDict.values (apply_events e1 (apply_events e0 (active_connections w)))) ->
       send_fault w h' = None) ->
   quiet (PyDict.ma_used (apply_events e1 (apply_events e0 (active_connections w)))) rest ->
   exists w',
     iteration json_dumps client_id t w = (Ok tt, w')
     /\ trace w'
        = trace w ++ Inserted (dict (built client_id t data))
                  :: sends (json_dumps (dict (built client_id t data)))
                       (PyDict.values
                          (apply_events e1 (apply_events e0 (active_connections w))))
     /\ active_connections w' = apply_events e1 (apply_events e0 (active_connections w)))
  /\ (PyDict.wf (active_connections w) ->
      PyDict.items (active_connections w) = ipre ++ (kh, h) :: ipost ->
      In k (map fst ipost) ->
      (forall h', In h' (map snd ipre ++ h :: map snd (rebind k ws ipost)) ->
                  send_fault w h' = None) ->
      pending w = repeat [] (List.length ipre) ++ [Registers k ws] :: rest' ->
      quiet (List.length ipost) rest' ->
      exists w',
        broadcast message w = (Ok tt, w')
        /\ trace w'
           = trace w
               ++ sends message (map snd ipre ++ h :: map snd (rebind k ws ipost))
        /\ active_connections w' = PyDict.setitem (active_connections w) k ws).
Proof.
  split.
  - intros Hin Hins Hp Hok Hq.
    rewrite (@iteration_run json_dumps client_id t data w Hin Hins);
      rewrite Hp; simpl hd; simpl tl; try assumption.
    eexists. split; [reflexivity |]. split; reflexivity.
  - intros Hwf Hitems Hk Hok Hp Hq.
    exact (@broadcast_rebound message ipre kh h ipost k ws rest' w
             Hwf Hitems Hk Hok Hp Hq).
Qed.

(** C6. For a text that [receive_text] returns, the handler builds the
    message with the fields [client_id] (its own identity), [content] (the
    text as received) and [timestamp] (the reading of the server's clock in
    that pass).  Whatever the schedule and the faults, the I/O of the pass
    is at most one insert, of the document of that message, followed by
    writes of the serialisation of that same document.  In a healthy
    environment with nobody else running the document is inserted exactly
    once and every registered socket is written the serialisation exactly
    once. *)
Theorem one_message_per_inbound_text
        (client_id : string) (t : turn) (data : string) (w : World) :
  incoming t = Ok data ->
  dict (built client_id t data)
  = [("client_id", client_id); ("content", data); ("timestamp", now t)]
  /\ (exists ins hs,
        evolves (ins ++ sends (json_dumps (dict (built client_id t data))) hs) w
                (snd (iteration json_dumps client_id t w))
        /\ (ins = [] \/ ins = [Inserted (dict (built client_id t data))]))
  /\ (insert_fault w = None ->
      pending w = [] ->
      (forall h, In h (PyDict.values (active_connections w)) -> send_fault w h = None) ->
      exists w',
        iteration json_dumps client_id t w = (Ok tt, w')
        /\ trace w'
           = trace w ++ Inserted (dict (built client_id t data))
                     :: sends (json_dumps (dict (built client_id t data)))
                          (PyDict.values (active_connections w))
        /\ messages_collection w'
           = messages_collection w ++ [dict (built client_id t data)]).
Proof.
  intros Hin. split; [reflexivity |]. split.
  - destruct (evolves_iteration json_dumps client_id t w) as (xs & Hev & Hshape).
    rewrite Hin in Hshape. destruct Hshape as (ins & hs & -> & Hcases).
    now exists ins, hs.
  - intros Hins Hp Hok.
    rewrite (@iteration_run json_dumps client_id t data w Hin Hins);
      rewrite Hp; simpl hd; simpl tl.
    + eexists. split; [reflexivity |]. split; reflexivity.
    + exact Hok.
    + apply quiet_nil.
Qed.

(** C5. Starting from a registry with one slot per key, [connect] returns
    without raising, the registry still has one slot per key, the identity
    is bound to the socket just given and that is its only entry, so that a
    following broadcast (healthy sockets, nobody else running) writes to
    the registry's values, among which the identity contributes that socket
    alone.  The same invariant holds after any run of the handler, whatever
    the schedule and the faults, and in the registry the manager starts
    with. *)
Theorem one_entry_per_identity
        (client_id : string) (websocket : WebSocket) (w : World) :
  PyDict.wf (active_connections w) ->
  (exists w',
      connect client_id websocket w = (Ok tt, w')
      /\ PyDict.wf (active_connections w')
      /\ PyDict.get (active_connections w') client_id = Some websocket
      /\ filter (fun kv => String.eqb (fst kv) client_id)
                (PyDict.items (active_connections w'))
         = [(client_id, websocket)]
      /\ (forall message,
             (forall h, In h (PyDict.values (active_connections w')) ->
                        send_fault w' h = None) ->
             quiet (PyDict.ma_used (active_connections w')) (pending w') ->
             exists w'',
               broadcast message w' = (Ok tt, w'')
               /\ trace w''
                  = trace w' ++ sends message
                                  (map snd (PyDict.items (active_connections w')))))
  /\ (forall ws k turns,
         PyDict.wf (active_connections
                      (snd (websocket_endpoint json_dumps ws k turns w))))
  /\ PyDict.wf init_connections.
Proof.
  intros Hwf. split; [| split].
  - unfold connect, bind, await_, accept, assign.
    rewrite run_events_apply. simpl.
    eexists. split; [reflexivity |]. simpl.
    assert (Hwf' : PyDict.wf (apply_events (hd [] (pending w)) (active_connections w)))
      by now apply apply_events_wf.
    repeat split.
    + now apply dict_wf_setitem.
    + apply dict_get_setitem_same.
    + now apply dict_entries_setitem.
    + intros message Hok Hq.
      rewrite broadcast_quiet; [| exact Hok | exact Hq].
      eexists. split; reflexivity.
  - intros ws k turns.
    destruct (no_query_endpoint json_dumps ws k turns w) as (xs & Hev & _).
    now apply Hev.
  - constructor.
Qed.

(** C9. For a limit that is not negative and a collection that answers,
    [get_message_history] returns: at most [limit] documents, all of them
    from the collection, each at least as new as those after it by the
    [timestamp] field; the call is one query of the collection.  No run of
    the session handler, whatever the schedule and the faults, queries the
    collection. *)
Theorem history_newest_first (limit : Z) (w : World) :
  (0 <= limit)%Z ->
  find_fault w = None ->
  (exists l w',
      get_message_history limit w = (Ok l, w')
      /\ List.length l <= Z.to_nat limit
      /\ StronglySorted newest_first l
      /\ incl l (messages_collection w)
      /\ trace w' = trace w ++ [Queried limit])
  /\ (forall ws k turns (w0 : World),
         exists xs,
           trace (snd (websocket_endpoint json_dumps ws k turns w0)) = trace w0 ++ xs
           /\ forallb (fun x => negb (is_query x)) xs = true).
Proof.
  intros Hlim Hfind. split.
  - unfold get_message_history, await_, to_list.
    destruct (Z.ltb_spec limit 0) as [Hneg|_]; [lia |].
    rewrite Hfind, run_events_apply. simpl.
    eexists. eexists. split; [reflexivity |]. repeat split.
    + apply firstn_le_length.
    + apply firstn_sorted, cursor_limit_sorted, sort_desc_sorted.
    + intros x Hx. apply firstn_subset in Hx. apply cursor_limit_incl in Hx.
      exact (Permutation_in x (Permutation_sym (sort_desc_perm _)) Hx).
  - intros ws k turns w0.
    destruct (no_query_endpoint json_dumps ws k turns w0) as (xs & Hev & Hxs).
    exists xs. split; [apply Hev | exact Hxs].
Qed.
End HandlerClaims.


(** ** The claims at sample worlds *)


(** C1, as stated, fails.  ann and bo are registered on healthy sockets and
    the database refuses the insert.  ann's text "hello" ends the pass with
    the database's exception; the world is what it was, so nothing has been
    written to either socket and nothing logged; and the handler is left by
    that exception. *)
Lemma persistence_failure_counterexample :
  insert_fault storage_fails = Some storage_down
  /\ PyDict.values (active_connections storage_fails) = [1; 2]
  /\ send_fault storage_fails 1 = None
  /\ send_fault storage_fails 2 = None
  /\ iteration py_json_dumps "ann" hello storage_fails
     = (Raise storage_down, storage_fails)
  /\ recipients (py_json_dumps (dict (built "ann" hello "hello")))
       (trace (snd (iteration py_json_dumps "ann" hello storage_fails))) = []
  /\ serve py_json_dumps "ann" [hello] storage_fails
     = (Propagated storage_down, storage_fails).
Proof. repeat split. Qed.

Lemma failed_insert_ends_the_pass_witness :
  exists w',
    iteration py_json_dumps "ann" hello storage_fails = (Raise storage_down, w')
    /\ trace w' = trace storage_fails
    /\ messages_collection w' = messages_collection storage_fails
    /\ active_connections w'
       = apply_events (hd [] (tl (pending storage_fails)))
           (apply_events (hd [] (pending storage_fails))
              (active_connections storage_fails))
    /\ (is_disconnect storage_down = false ->
        forall turns,
          serve py_json_dumps "ann" (hello :: turns) storage_fails
          = (Propagated storage_down, w')).
Proof.
  apply (@failed_insert_ends_the_pass py_json_dumps "ann" hello "hello"
           storage_down storage_fails); reflexivity.
Defined.

(** C3, as stated, fails, before the broadcast and during it.  Only ann
    is registered when her text "hello" is received; while the insert is
    under way bo registers on socket 2; the broadcast that follows writes the
    message to socket 1 and to socket 2.  And with ann and bo registered on
    the sockets 1 and 2, bo registers again, on socket 7, while a broadcast
    is writing to socket 1: the broadcast writes next to socket 7, which was
    not in the registry when it started, and not to socket 2, which was. *)
Lemma late_registration_counterexample :
  PyDict.values (active_connections bo_joins_late) = [1]
  /\ PyDict.get (active_connections bo_joins_late) "bo" = None
  /\ pending bo_joins_late = [[]; [Registers "bo" 2]]
  /\ fst (iteration py_json_dumps "ann" hello bo_joins_late) = Ok tt
  /\ recipients (py_json_dumps (dict (built "ann" hello "hello")))
       (trace (snd (iteration py_json_dumps "ann" hello bo_joins_late)))
     = [1; 2]
  /\ PyDict.values (active_connections bo_reconnects) = [1; 2]
  /\ pending bo_reconnects = [[Registers "bo" 7]]
  /\ fst (broadcast "hi" bo_reconnects) = Ok tt
  /\ recipients "hi" (trace (snd (broadcast "hi" bo_reconnects))) = [1; 7].
Proof. repeat split. Qed.

Lemma broadcast_walks_the_live_registry_witness :
  (exists w',
      iteration py_json_dumps "ann" hello bo_joins_late = (Ok tt, w')
      /\ trace w'
         = trace bo_joins_late
             ++ Inserted (dict (built "ann" hello "hello"))
                :: sends (py_json_dumps (dict (built "ann" hello "hello"))) [1; 2]
      /\ active_connections w' = [Some ("ann", 1); Some ("bo", 2)])
  /\ (exists w',
         broadcast "hi" bo_reconnects = (Ok tt, w')
         /\ trace w' = trace bo_reconnects ++ sends "hi" [1; 7]
         /\ active_connections w' = [Some ("ann", 1); Some ("bo", 7)]).
Proof.
  split.
  - apply (proj1 (@broadcast_walks_the_live_registry py_json_dumps "ann" hello "hello"
                    [] [Registers "bo" 2] [] "hi" [] "ann" 1 [("bo", 2)] "bo" 7 []
                    bo_joins_late)); try reflexivity.
    apply quiet_nil.
  - assert (Hwf : PyDict.wf (active_connections bo_reconnects)) by wf_by_computation.
    apply (proj2 (@broadcast_walks_the_live_registry py_json_dumps "ann" hello "hello"
                    [] [] [] "hi" [] "ann" 1 [("bo", 2)] "bo" 7 []
                    bo_reconnects) Hwf); try reflexivity.
    + simpl. now left.
    + apply quiet_nil.
Defined.

Lemma one_message_per_inbound_text_witness :
  exists w',
    iteration py_json_dumps "ann" hello two_clients = (Ok tt, w')
    /\ trace w'
       = trace two_clients
           ++ Inserted (dict (built "ann" hello "hello"))
              :: sends (py_json_dumps (dict (built "ann" hello "hello"))) [1; 2]
    /\ messages_collection w'
       = messages_collection two_clients ++ [dict (built "ann" hello "hello")].
Proof.
  destruct (@one_message_per_inbound_text py_json_dumps "ann" hello "hello"
              two_clients eq_refl) as (_ & _ & Hexact).
  apply Hexact; reflexivity.
Defined.

(** ann connects again, on socket 7, while her first connection is still in
    the registry. *)
Lemma one_entry_per_identity_witness :
  exists w',
    connect "ann" 7 two_clients = (Ok tt, w')
    /\ PyDict.get (active_connections w') "ann" = Some 7
    /\ PyDict.values (active_connections w') = [7; 2]
    /\ (exists w'', broadcast "hi" w' = (Ok tt, w'')
                    /\ trace w'' = trace w' ++ sends "hi" [7; 2]).
Proof.
  destruct (@one_entry_per_identity py_json_dumps "ann" 7 two_clients)
    as [(w' & Hc & _ & Hget & _ & Hb) _].
  - wf_by_computation.
  - exists w'. injection Hc as <-. repeat split.
    apply (Hb "hi").
    + intros h _. reflexivity.
    + apply quiet_nil.
Defined.

Lemma history_newest_first_witness :
  exists l w',
    get_message_history 1 after_two_texts = (Ok l, w')
    /\ l = [dict (built "ann" again "anyone there?")]
    /\ List.length (messages_collection after_two_texts) = 2.
Proof.
  destruct (@history_newest_first py_json_dumps 1%Z after_two_texts)
    as [(l & w' & Hg & _) _].
  - lia.
  - reflexivity.
  - exists l, w'. injection Hg as <- <-. repeat split.
Defined.

(** ann registers, sends "hello" and leaves; then bo registers and sends
    "anyone there?".  The first message went to ann's socket only, the second
    to bo's only, and the collection holds the two documents in that order. *)
Example bo_receives_only_the_second :
  let w1 := snd (websocket_endpoint py_json_dumps 1 "ann" [hello; goodbye] init_world) in
  let w2 := snd (websocket_endpoint py_json_dumps 2 "bo" [again] w1) in
    PyDict.items (active_connections w2) = [("bo", 2)]
    /\ recipients (py_json_dumps (dict (built "ann" hello "hello"))) (trace w2) = [1]
    /\ recipients (py_json_dumps (dict (built "bo" again "anyone there?"))) (trace w2) = [2]
    /\ messages_collection w2
       = [dict (built "ann" hello "hello"); dict (built "bo" again "anyone there?")].
Proof. repeat split. Qed.

(** * Further properties of the code *)

(** ** More on the dict *)

Lemma dict_used_setitem_fresh (d : PyDict.t WebSocket) k v :
  PyDict.contains d k = false ->
  PyDict.ma_used (PyDict.setitem d k v) = S (PyDict.ma_used d).
Proof.
  intros Hc.
  assert (Hk : List.length (PyDict.keys (PyDict.setitem d k v))
               = S (List.length (PyDict.keys d))).
  { rewrite dict_keys_setitem, Hc, length_app. simpl. lia. }
  unfold PyDict.keys in Hk. rewrite !length_map in Hk. exact Hk.
Qed.

(** Assigning a key and deleting it again leaves the entries of the other
    keys, in their order. *)
Lemma dict_items_setitem_unregister (d : PyDict.t WebSocket) k v :
  PyDict.wf d ->
  PyDict.items (unregister (PyDict.setitem d k v) k)
  = filter (fun kv => negb (String.eqb (fst kv) k)) (PyDict.items d).
Proof.
  intros Hwf. unfold unregister, PyDict.contains.
  rewrite dict_get_setitem_same.
  unfold PyDict.wf, PyDict.keys in Hwf.
  induction d as [|[[k' v']|] d IH]; simpl.
  - rewrite String.eqb_refl. reflexivity.
  - simpl in Hwf. inversion Hwf as [|? ? Hnotin Hwf']; subst.
    destruct (String.eqb_spec k' k) as [->|Hne]; simpl.
    + rewrite String.eqb_refl. simpl.
      clear IH Hwf Hwf'. induction (PyDict.items d) as [|[k1 v1] l IHl]; simpl.
      * reflexivity.
      * simpl in Hnotin. destruct (String.eqb_spec k1 k) as [->|Hk1].
        -- exfalso. apply Hnotin. now left.
        -- simpl. f_equal. apply IHl. intros Hin. apply Hnotin. now right.
    + destruct (String.eqb_spec k' k) as [|_]; [contradiction |].
      specialize (IH Hwf').
      destruct (PyDict.delitem (PyDict.setitem d k v) k) as [d'|e]; simpl in *.
      * now rewrite IH.
      * now rewrite IH.
  - simpl in Hwf. specialize (IH Hwf).
    destruct (PyDict.delitem (PyDict.setitem d k v) k) as [d'|e]; simpl in *;
      exact IH.
Qed.

Lemma filter_other_keys (d : PyDict.t WebSocket) k :
  PyDict.contains d k = false ->
  filter (fun kv => negb (String.eqb (fst kv) k)) (PyDict.items d) = PyDict.items d.
Proof.
  intros Hc.
  assert (Hnotin : ~ In k (PyDict.keys d))
    by (intros Hin; apply dict_contains_keys in Hin; congruence).
  unfold PyDict.keys in Hnotin.
  induction (PyDict.items d) as [|[k1 v1] l IH]; simpl; [reflexivity |].
  simpl in Hnotin. destruct (String.eqb_spec k1 k) as [->|Hne].
  - exfalso. apply Hnotin. now left.
  - simpl. f_equal. apply IH. intros Hin. apply Hnotin. now right.
Qed.

(** ** The manager's methods, one after the other *)

(** X1. Whatever the schedule, after [connect] has registered an identity on
    a socket that accepts writes, [send_personal_message] to that identity
    returns without raising and writes the text to that socket: the two calls
    perform the accept and that one write, and nothing else. *)
Theorem connect_then_personal_message
        (client_id : string) (websocket : WebSocket) (message : string) (w : World) :
  send_fault w websocket = None ->
  exists w1 w2,
    connect client_id websocket w = (Ok tt, w1)
    /\ send_personal_message message client_id w1 = (Ok tt, w2)
    /\ trace w2 = trace w ++ [Accepted websocket; Sent websocket message].
Proof.
  intros Hok. unfold connect, bind, await_ at 1, accept, assign.
  rewrite run_events_apply. simpl.
  eexists. eexists. split; [reflexivity |].
  unfold send_personal_message. simpl. rewrite dict_get_setitem_same.
  unfold await_, send_text. simpl. rewrite Hok.
  rewrite run_events_apply. simpl. split; [reflexivity |].
  unfold set_connections, set_pending, emit. simpl.
  now rewrite <- app_assoc.
Qed.

Lemma connect_then_personal_message_witness :
  exists w1 w2,
    connect "dan" 4 cy_leaves = (Ok tt, w1)
    /\ send_personal_message "welcome" "dan" w1 = (Ok tt, w2)
    /\ trace w2 = trace cy_leaves ++ [Accepted 4; Sent 4 "welcome"].
Proof.
  apply (@connect_then_personal_message "dan" 4 "welcome" cy_leaves).
  reflexivity.
Defined.

(** X2. After [disconnect] of an identity, [send_personal_message] to that
    identity does nothing, whatever the text: it returns without raising and
    the world is the one [disconnect] left. *)
Theorem disconnect_then_personal_message (client_id : string) (w : World) :
  PyDict.wf (active_connections w) ->
  exists w1,
    disconnect client_id w = (Ok tt, w1)
    /\ forall message, send_personal_message message client_id w1 = (Ok tt, w1).
Proof.
  intros Hwf. rewrite disconnect_unregister. eexists. split; [reflexivity |].
  intros message. unfold send_personal_message. simpl.
  pose proof (unregister_absent client_id Hwf) as Habs.
  unfold PyDict.contains in Habs.
  now destruct (PyDict.get (unregister (active_connections w) client_id) client_id).
Qed.

Lemma disconnect_then_personal_message_witness :
  exists w1,
    disconnect "bo" three_clients = (Ok tt, w1)
    /\ forall message, send_personal_message message "bo" w1 = (Ok tt, w1).
Proof.
  apply (@disconnect_then_personal_message "bo" three_clients).
  wf_by_computation.
Defined.

(** X3. With nobody else running, [connect] of an identity followed by
    [disconnect] of that identity leaves the registry with the entries of the
    other identities, in their order, and none for that identity: an entry it
    had before the [connect] is gone too, and with it the socket registered
    last.  When the identity was not registered before, the entries are those
    the registry had. *)
Theorem connect_then_disconnect
        (client_id : string) (websocket : WebSocket) (w : World) :
  PyDict.wf (active_connections w) ->
  pending w = [] ->
  exists w1 w2,
    connect client_id websocket w = (Ok tt, w1)
    /\ disconnect client_id w1 = (Ok tt, w2)
    /\ PyDict.items (active_connections w2)
       = filter (fun kv => negb (String.eqb (fst kv) client_id))
                (PyDict.items (active_connections w))
    /\ (PyDict.contains (active_connections w) client_id = false ->
        PyDict.items (active_connections w2) = PyDict.items (active_connections w)).
Proof.
  intros Hwf Hp. unfold connect, bind, await_, accept, assign. simpl.
  rewrite Hp. simpl.
  eexists. eexists. split; [reflexivity |].
  rewrite disconnect_unregister. simpl. split; [reflexivity |].
  unfold set_connections. cbn [active_connections].
  rewrite (dict_items_setitem_unregister client_id websocket Hwf).
  split; [reflexivity |]. intros Hc. now apply filter_other_keys.
Qed.

Lemma connect_then_disconnect_witness :
  exists w1 w2,
    connect "ann" 7 two_clients = (Ok tt, w1)
    /\ disconnect "ann" w1 = (Ok tt, w2)
    /\ PyDict.items (active_connections w2) = [("bo", 2)].
Proof.
  assert (Hwf : PyDict.wf (active_connections two_clients)) by wf_by_computation.
  destruct (@connect_then_disconnect "ann" 7 two_clients Hwf eq_refl)
    as (w1 & w2 & Hc & Hd & Hitems & _).
  exists w1, w2. split; [exact Hc |]. split; [exact Hd |].
  rewrite Hitems. reflexivity.
Defined.

(** X4. When an identity that is not registered registers while a broadcast
    is suspended in a write (and nothing else touches the registry in that
    broadcast), the write under way completes and the broadcast then raises
    [RuntimeError]: the sockets up to that one have the message, no later
    socket is written to, and the new identity is in the registry. *)
Theorem register_during_broadcast_raises
        (message : string) (pre : list WebSocket) (h : WebSocket)
        (post : list WebSocket) (k : string) (ws : WebSocket)
        (rest : list (list event)) (w : World) :
  PyDict.values (active_connections w) = pre ++ h :: post ->
  (forall h', In h' (pre ++ [h]) -> send_fault w h' = None) ->
  pending w = repeat [] (List.length pre) ++ [Registers k ws] :: rest ->
  PyDict.contains (active_connections w) k = false ->
  exists w',
    broadcast message w
    = (Raise (RuntimeError "dictionary changed size during iteration"), w')
    /\ trace w' = trace w ++ sends message (pre ++ [h])
    /\ active_connections w' = PyDict.setitem (active_connections w) k ws.
Proof.
  intros Hv Hok Hp Hc.
  assert (Hnth : nth (List.length pre) (pending w) [] = [Registers k ws])
    by (rewrite Hp; apply nth_repeat).
  rewrite (@broadcast_resized message pre h post w Hv Hok).
  - rewrite Hnth. eexists. split; [reflexivity |]. split; reflexivity.
  - rewrite Hp. apply quiet_repeat.
  - rewrite Hnth. simpl. rewrite (dict_used_setitem_fresh _ _ ws Hc). lia.
Qed.

Lemma register_during_broadcast_raises_witness :
  exists w',
    broadcast "hi" dan_joins
    = (Raise (RuntimeError "dictionary changed size during iteration"), w')
    /\ trace w' = trace dan_joins ++ sends "hi" ([] ++ [1])
    /\ active_connections w' = PyDict.setitem (active_connections dan_joins) "dan" 4.
Proof.
  apply (@register_during_broadcast_raises "hi" [] 1 [2; 3] "dan" 4 [] dan_joins).
  - reflexivity.
  - intros h' [<- | []]. reflexivity.
  - reflexivity.
  - reflexivity.
Defined.

(** ** The handler, further *)

Lemma docs_of_sends text hs : docs_of (sends text hs) = [].
Proof. induction hs as [|h hs IH]; simpl; [reflexivity | exact IH]. Qed.

Section HandlerExtras.
Variable json_dumps : Doc -> string.

(** With nobody else running and a database that accepts the insert, the
    pass reaches the broadcast with the document stored. *)
Lemma iteration_idle client_id t data (w : World) :
  incoming t = Ok data ->
  insert_fault w = None ->
  pending w = [] ->
  iteration json_dumps client_id t w
  = broadcast (json_dumps (dict (built client_id t data)))
              (stored (dict (built client_id t data)) w).
Proof.
  intros Hin Hins Hp.
  unfold iteration, bind, await_ at 1, receive_text. rewrite Hin, Hp. simpl.
  unfold add_to_history, await_, insert_one. simpl. rewrite Hins. simpl.
  reflexivity.
Qed.

Lemma iteration_idle_run client_id t data (w : World) :
  incoming t = Ok data ->
  insert_fault w = None ->
  pending w = [] ->
  (forall h, In h (PyDict.values (active_connections w)) -> send_fault w h = None) ->
  iteration json_dumps client_id t w
  = (Ok tt,
     after (sends (json_dumps (dict (built client_id t data)))
                  (PyDict.values (active_connections w)))
           [] (stored (dict (built client_id t data)) w)).
Proof.
  intros Hin Hins Hp Hok.
  rewrite (@iteration_idle client_id t data w Hin Hins Hp).
  rewrite broadcast_quiet.
  - simpl. now rewrite skipn_nil.
  - exact Hok.
  - apply quiet_nil.
Qed.

(** X5. A recipient's socket that answers a write with [WebSocketDisconnect]
    unregisters the sender.  With nobody else running and a database that
    accepts the insert, the sender's pass stores the document, writes the
    message to the sockets before that one, and the exception reaches the
    handler's [except] clause: the handler returns, the sender's identity is
    gone from the registry, and every other identity, the one of the failed
    socket included, keeps its entry. *)
Theorem recipient_disconnect_unregisters_sender
        (client_id : string) (t : turn) (data : string) (turns : list turn)
        (pre : list WebSocket) (h : WebSocket) (post : list WebSocket) (w : World) :
  incoming t = Ok data ->
  insert_fault w = None ->
  pending w = [] ->
  PyDict.wf (active_connections w) ->
  PyDict.values (active_connections w) = pre ++ h :: post ->
  (forall h', In h' pre -> send_fault w h' = None) ->
  send_fault w h = Some WebSocketDisconnect ->
  exists w',
    serve json_dumps client_id (t :: turns) w = (Returned, w')
    /\ PyDict.contains (active_connections w') client_id = false
    /\ (forall k, k <> client_id ->
          PyDict.get (active_connections w') k = PyDict.get (active_connections w) k)
    /\ trace w'
       = trace w ++ Inserted (dict (built client_id t data))
                 :: sends (json_dumps (dict (built client_id t data))) pre.
Proof.
  intros Hin Hins Hp Hwf Hv Hok Hf. simpl.
  rewrite (@iteration_idle client_id t data w Hin Hins Hp).
  rewrite (@broadcast_fault (json_dumps (dict (built client_id t data)))
             pre h post WebSocketDisconnect
             (stored (dict (built client_id t data)) w) Hv Hok Hf (quiet_nil _)).
  simpl. rewrite disconnect_unregister. simpl.
  eexists. split; [reflexivity |]. simpl. repeat split.
  - now apply unregister_absent.
  - intros k Hne. now apply unregister_other.
  - now rewrite <- app_assoc.
Qed.

(** X6. With nobody else running, a run of the handler's loop touches the
    registry in one way only.  When it is left waiting for a text, or by an
    exception, the registry is what it was, and that exception is not
    [WebSocketDisconnect]; when it returns, the registry is what [disconnect]
    of the handler's identity makes of it. *)
Theorem loop_outcomes
        (client_id : string) (turns : list turn) (w : World) (st : status) (w' : World) :
  pending w = [] ->
  serve json_dumps client_id turns w = (st, w') ->
  match st with
  | Receiving => active_connections w' = active_connections w
  | Propagated e =>
      active_connections w' = active_connections w /\ is_disconnect e = false
  | Returned =>
      active_connections w' = unregister (active_connections w) client_id
  end.
Proof.
  revert w. induction turns as [|t turns IH]; intros w Hp Hs; simpl in Hs.
  - now injection Hs as <- <-.
  - destruct (idle_iteration json_dumps client_id t w Hp) as [Ha Hp'].
    destruct (iteration json_dumps client_id t w) as [[[]|e] w1]; simpl in *.
    + specialize (IH w1 Hp' Hs). rewrite Ha in IH. exact IH.
    + destruct (is_disconnect e) eqn:He.
      * rewrite disconnect_unregister in Hs. injection Hs as <- <-.
        simpl. now rewrite Ha.
      * injection Hs as <- <-. now split.
Qed.

(** X7. Texts are stored and broadcast in the order they arrive.  In a
    healthy environment with nobody else running, a run of the loop over
    turns that all deliver a text ends waiting for the next; the collection
    has gained the documents of the texts in their order; and the I/O is, for
    each text in turn, its insert followed by one write of its serialisation
    to every registered socket, in the registry's order. *)
Theorem texts_in_order (client_id : string) (turns : list turn) (w : World) :
  insert_fault w = None ->
  pending w = [] ->
  (forall h, In h (PyDict.values (active_connections w)) -> send_fault w h = None) ->
  Forall delivers turns ->
  exists w',
    serve json_dumps client_id turns w = (Receiving, w')
    /\ messages_collection w'
       = messages_collection w ++ map (doc_of client_id) turns
    /\ trace w'
       = trace w
           ++ flat_map (fun t => Inserted (doc_of client_id t)
                                 :: sends (json_dumps (doc_of client_id t))
                                      (PyDict.values (active_connections w)))
                       turns
    /\ active_connections w' = active_connections w.
Proof.
  revert w. induction turns as [|t turns IH]; intros w Hins Hp Hok Hall; simpl.
  - exists w. rewrite !app_nil_r. repeat split.
  - inversion Hall as [|? ? [data Hin] Hall']; subst.
    rewrite (@iteration_idle_run client_id t data w Hin Hins Hp Hok).
    destruct (IH (after (sends (json_dumps (dict (built client_id t data)))
                               (PyDict.values (active_connections w)))
                        [] (stored (dict (built client_id t data)) w)))
      as (w' & Hs & Hmc & Htr & Hac); try assumption; try reflexivity.
    exists w'. split; [exact Hs |].
    unfold doc_of, text_of in *. rewrite Hin.
    rewrite Hmc, Htr, Hac. simpl. rewrite <- !app_assoc. simpl.
    repeat split.
Qed.

(** X8. Whatever the schedule and the faults, a run of the session handler
    leaves the documents the collection had where they were and adds at most
    one document for each turn; every document it adds has the handler's
    identity in its [client_id] field. *)
Theorem handler_stores_under_its_identity
        (websocket : WebSocket) (client_id : string) (turns : list turn) (w : World) :
  exists docs,
    messages_collection (snd (websocket_endpoint json_dumps websocket client_id turns w))
    = messages_collection w ++ docs
    /\ Forall (fun doc => field "client_id" doc = Some client_id) docs
    /\ List.length docs <= List.length turns.
Proof.
  assert (Hserve : forall turns' (w0 : World),
             exists xs,
               evolves xs w0 (snd (serve json_dumps client_id turns' w0))
               /\ Forall (fun doc => field "client_id" doc = Some client_id) (docs_of xs)
               /\ List.length (docs_of xs) <= List.length turns').
  { induction turns' as [|t turns' IH]; intros w0; simpl.
    - exists []. split; [apply evolves_refl |]. split; [constructor | simpl; lia].
    - destruct (evolves_iteration json_dumps client_id t w0) as (xs & Hev & Hshape).
      assert (Hdocs : Forall (fun doc => field "client_id" doc = Some client_id) (docs_of xs)
                      /\ List.length (docs_of xs) <= 1).
      { destruct (incoming t) as [data|e].
        - destruct Hshape as (ins & hs & -> & [-> | ->]);
            rewrite docs_of_app, docs_of_sends; simpl.
          + split; [constructor | lia].
          + split; [repeat constructor | lia].
        - subst xs. simpl. split; [constructor | lia]. }
      destruct Hdocs as [Hall Hlen].
      destruct (iteration json_dumps client_id t w0) as [[[]|e] w1]; simpl in Hev.
      + destruct (IH w1) as (ys & Hev' & Hall' & Hlen').
        exists (xs ++ ys). split; [exact (evolves_trans Hev Hev') |].
        rewrite docs_of_app, length_app. split; [now apply Forall_app | lia].
      + destruct (is_disconnect e).
        * pose proof (evolves_disconnect client_id w1) as Hd.
          exists xs. split; [| split; [exact Hall | lia]].
          rewrite <- (app_nil_r xs).
          destruct (disconnect client_id w1) as [[[]|e'] w2]; simpl in *;
            exact (evolves_trans Hev Hd).
        * exists xs. split; [exact Hev |]. split; [exact Hall | lia]. }
  unfold websocket_endpoint.
  pose proof (evolves_connect client_id websocket w) as Hc.
  pose proof (connect_returns client_id websocket w) as Hr.
  destruct (connect client_id websocket w) as [[[]|e] w1]; simpl in Hc, Hr;
    [| discriminate].
  destruct (Hserve turns w1) as (xs & Hev & Hall & Hlen).
  exists (docs_of xs). split; [| now split].
  destruct Hc as (_ & Hmc & _). destruct Hev as (_ & Hmc' & _).
  rewrite Hmc', Hmc. simpl. now rewrite app_nil_r.
Qed.

(** X9. The sender is among the recipients.  In a healthy environment with
    nobody else running, when the handler's identity is registered on a
    socket, the pass for a text it receives writes the serialised message to
    that socket. *)
Theorem sender_receives_own_message
        (client_id : string) (websocket : WebSocket) (t : turn) (data : string)
        (w : World) :
  PyDict.get (active_connections w) client_id = Some websocket ->
  incoming t = Ok data ->
  insert_fault w = None ->
  pending w = [] ->
  (forall h, In h (PyDict.values (active_connections w)) -> send_fault w h = None) ->
  exists w',
    iteration json_dumps client_id t w = (Ok tt, w')
    /\ In websocket
          (recipients (json_dumps (dict (built client_id t data)))
             (skipn (List.length (trace w)) (trace w'))).
Proof.
  intros Hget Hin Hins Hp Hok.
  rewrite (@iteration_idle_run client_id t data w Hin Hins Hp Hok).
  eexists. split; [reflexivity |]. simpl.
  rewrite <- app_assoc, skipn_app, skipn_all, Nat.sub_diag. simpl.
  apply dict_get_items in Hget. apply (in_map snd) in Hget. simpl in Hget.
  fold (PyDict.values (active_connections w)) in Hget.
  clear Hok. induction (PyDict.values (active_connections w)) as [|x l IH]; simpl.
  - contradiction.
  - rewrite String.eqb_refl. destruct Hget as [-> | Hget]; [now left | right; auto].
Qed.
End HandlerExtras.

Lemma recipient_disconnect_unregisters_sender_witness :
  exists w',
    serve py_json_dumps "ann" [hello; again] bo_hangs_up = (Returned, w')
    /\ PyDict.contains (active_connections w') "ann" = false
    /\ PyDict.get (active_connections w') "bo" = Some 2
    /\ trace w'
       = trace bo_hangs_up
           ++ Inserted (dict (built "ann" hello "hello"))
              :: sends (py_json_dumps (dict (built "ann" hello "hello"))) [1].
Proof.
  assert (Hwf : PyDict.wf (active_connections bo_hangs_up)) by wf_by_computation.
  assert (Hok : forall h', In h' [1] -> send_fault bo_hangs_up h' = None)
    by (intros h' [<- | []]; reflexivity).
  destruct (@recipient_disconnect_unregisters_sender py_json_dumps "ann" hello "hello"
              [again] [1] 2 [3] bo_hangs_up eq_refl eq_refl eq_refl Hwf eq_refl Hok eq_refl)
    as (w' & Hs & Habs & Hothers & Htr).
  exists w'. split; [exact Hs |]. split; [exact Habs |]. split; [| exact Htr].
  rewrite Hothers; [reflexivity | discriminate].
Defined.

Lemma loop_outcomes_witness :
  active_connections (snd (serve py_json_dumps "ann" [hello; goodbye] two_clients))
  = unregister (active_connections two_clients) "ann".
Proof.
  exact (@loop_outcomes py_json_dumps "ann" [hello; goodbye] two_clients Returned
           (snd (serve py_json_dumps "ann" [hello; goodbye] two_clients))
           eq_refl eq_refl).
Defined.

Lemma texts_in_order_witness :
  exists w',
    serve py_json_dumps "ann" [hello; again] two_clients = (Receiving, w')
    /\ messages_collection w'
       = messages_collection two_clients ++ map (doc_of "ann") [hello; again]
    /\ trace w'
       = trace two_clients
           ++ flat_map (fun t => Inserted (doc_of "ann" t)
                                 :: sends (py_json_dumps (doc_of "ann" t))
                                      (PyDict.values (active_connections two_clients)))
                       [hello; again]
    /\ active_connections w' = active_connections two_clients.
Proof.
  apply (@texts_in_order py_json_dumps "ann" [hello; again] two_clients).
  - reflexivity.
  - reflexivity.
  - intros h _. reflexivity.
  - repeat constructor; eexists; reflexivity.
Defined.

Lemma sender_receives_own_message_witness :
  exists w',
    iteration py_json_dumps "ann" hello two_clients = (Ok tt, w')
    /\ In 1 (recipients (py_json_dumps (dict (built "ann" hello "hello")))
               (skipn (List.length (trace two_clients)) (trace w'))).
Proof.
  apply (@sender_receives_own_message py_json_dumps "ann" 1 hello "hello" two_clients).
  - reflexivity.
  - reflexivity.
  - reflexivity.
  - reflexivity.
  - intros h _. reflexivity.
Defined.

(** ** The history, further *)

Lemma sorted_app_split (a b : list Doc) :
  StronglySorted newest_first (a ++ b) ->
  forall x y, In x a -> In y b -> newest_first x y.
Proof.
  induction a as [|z a IH]; simpl; intros Hs x y Hx Hy; [contradiction |].
  inversion Hs as [|? ? Hs' Hall]; subst.
  destruct Hx as [-> | Hx].
  - rewrite Forall_forall in Hall. apply Hall. apply in_or_app. now right.
  - now apply IH.
Qed.

(** X10. When the collection answers and holds no more documents than a
    positive [limit], [get_message_history] returns all of them, each once,
    and leaves the collection as it is. *)
Theorem history_complete (limit : Z) (w : World) :
  (0 < limit)%Z ->
  find_fault w = None ->
  List.length (messages_collection w) <= Z.to_nat limit ->
  exists l w',
    get_message_history limit w = (Ok l, w')
    /\ Permutation l (messages_collection w)
    /\ messages_collection w' = messages_collection w.
Proof.
  intros Hlim Hfind Hlen.
  unfold get_message_history, await_, to_list.
  destruct (Z.ltb_spec limit 0) as [Hneg|_]; [lia |].
  rewrite Hfind, run_events_apply. simpl.
  eexists. eexists. split; [reflexivity |]. split; [| reflexivity].
  assert (Hsorted : List.length (sort_desc "timestamp" (messages_collection w))
                    <= Z.to_nat limit).
  { rewrite <- (Permutation_length (sort_desc_perm (messages_collection w))). exact Hlen. }
  unfold cursor_limit. destruct (Z.eqb_spec limit 0) as [?|_]; [lia |].
  replace (Z.abs_nat limit) with (Z.to_nat limit) by lia.
  rewrite !firstn_all2 by (try rewrite firstn_all2; exact Hsorted).
  symmetry. apply sort_desc_perm.
Qed.

Lemma history_complete_witness :
  exists l w',
    get_message_history 50 after_two_texts = (Ok l, w')
    /\ Permutation l (messages_collection after_two_texts)
    /\ messages_collection w' = messages_collection after_two_texts.
Proof.
  apply (@history_complete 50%Z after_two_texts).
  - lia.
  - reflexivity.
  - vm_compute. repeat constructor.
Defined.

(** X11. What [get_message_history] returns is the newest part of the
    collection: the documents it leaves out, together with those it returns,
    are the collection, and every returned document is at least as new, by
    its [timestamp] field, as every document left out. *)
Theorem history_keeps_the_newest (limit : Z) (w : World) :
  (0 <= limit)%Z ->
  find_fault w = None ->
  exists l rest w',
    get_message_history limit w = (Ok l, w')
    /\ Permutation (l ++ rest) (messages_collection w)
    /\ (forall x y, In x l -> In y rest -> newest_first x y).
Proof.
  intros Hlim Hfind.
  unfold get_message_history, await_, to_list.
  destruct (Z.ltb_spec limit 0) as [Hneg|_]; [lia |].
  rewrite Hfind, run_events_apply. simpl.
  exists (firstn (Z.to_nat limit)
            (cursor_limit limit (sort_desc "timestamp" (messages_collection w)))).
  exists (skipn (Z.to_nat limit) (sort_desc "timestamp" (messages_collection w))).
  eexists. split; [reflexivity |].
  assert (Heq : firstn (Z.to_nat limit)
                  (cursor_limit limit (sort_desc "timestamp" (messages_collection w)))
                = firstn (Z.to_nat limit)
                    (sort_desc "timestamp" (messages_collection w))).
  { unfold cursor_limit. destruct (Z.eqb_spec limit 0) as [?|_]; [reflexivity |].
    replace (Z.abs_nat limit) with (Z.to_nat limit) by lia.
    rewrite firstn_firstn. now rewrite Nat.min_id. }
  rewrite Heq. split.
  - rewrite firstn_skipn. symmetry. apply sort_desc_perm.
  - apply sorted_app_split. rewrite firstn_skipn. apply sort_desc_sorted.
Qed.

Lemma history_keeps_the_newest_witness :
  exists l rest w',
    get_message_history 1 after_two_texts = (Ok l, w')
    /\ Permutation (l ++ rest) (messages_collection after_two_texts)
    /\ (forall x y, In x l -> In y rest -> newest_first x y).
Proof.
  apply (@history_keeps_the_newest 1%Z after_two_texts).
  - lia.
  - reflexivity.
Defined.

(** ** The page's script *)

Lemma string_app_assoc (a b c : string) :
  ((a ++ b) ++ c)%string = (a ++ (b ++ c))%string.
Proof. induction a as [|x a IH]; simpl; [reflexivity | now rewrite IH]. Qed.

Lemma day_shown_back :
  forallb (fun hm =>
             match Script.shown_as (Script.formatTime (fst hm) (snd hm)) with
             | Some hm' => (fst hm =? fst hm') && (snd hm =? snd hm')
             | None => false
             end) Script.day = true.
Proof. vm_compute. reflexivity. Qed.

Lemma shown_as_formatTime h m :
  h < 24 -> m < 60 ->
  Script.shown_as (Script.formatTime h m) = Some (h, m).
Proof.
  intros Hh Hm.
  assert (Hin : In (h, m) Script.day).
  { unfold Script.day. apply in_prod; apply in_seq; lia. }
  pose proof (proj1 (forallb_forall _ _) day_shown_back (h, m) Hin) as Hback.
  simpl in Hback.
  destruct (Script.shown_as (Script.formatTime h m)) as [[h' m']|]; [| discriminate].
  apply andb_prop in Hback. destruct Hback as [H1 H2]. simpl in H1, H2.
  apply Nat.eqb_eq in H1, H2. now subst.
Qed.

(** X12. [formatTime] shows two different times of a day differently: for
    hours below 24 and minutes below 60, times that differ in the hour or in
    the minute give different texts. *)
Theorem formatTime_tells_times_apart (h m h' m' : nat) :
  h < 24 -> m < 60 -> h' < 24 -> m' < 60 ->
  (h, m) <> (h', m') ->
  Script.formatTime h m <> Script.formatTime h' m'.
Proof.
  intros Hh Hm Hh' Hm' Hne Heq. apply Hne.
  pose proof (shown_as_formatTime Hh Hm) as H1.
  pose proof (shown_as_formatTime Hh' Hm') as H2.
  rewrite Heq, H2 in H1. now injection H1 as -> ->.
Qed.

Lemma formatTime_tells_times_apart_witness :
  Script.formatTime 0 5 <> Script.formatTime 12 5.
Proof.
  apply (@formatTime_tells_times_apart 0 5 12 5); try lia. discriminate.
Defined.

(** X13. [formatTime] is a twelve-hour clock: an hour of the morning and the
    hour twelve later are shown alike, minute for minute, up to the mark,
    which is AM for the first and PM for the second. *)
Theorem formatTime_halves_of_the_day (h m : nat) :
  h < 12 ->
  exists body,
    Script.formatTime h m = (body ++ "AM")%string
    /\ Script.formatTime (h + 12) m = (body ++ "PM")%string.
Proof.
  intros Hh. unfold Script.formatTime.
  replace ((h + 12) mod 12) with (h mod 12)
    by (replace (h + 12) with (h + 1 * 12) by lia; now rewrite Nat.Div0.mod_add).
  destruct (Nat.leb_spec 12 h) as [?|_]; [lia |].
  destruct (Nat.leb_spec 12 (h + 12)) as [_|?]; [| lia].
  set (hh := Script.toString (if h mod 12 =? 0 then 12 else h mod 12)).
  set (mm := Script.padStart2 (Script.toString m)).
  exists (hh ++ ":" ++ mm ++ " ")%string.
  now rewrite !string_app_assoc.
Qed.

Lemma formatTime_halves_of_the_day_witness :
  exists body,
    Script.formatTime 9 30 = (body ++ "AM")%string
    /\ Script.formatTime (9 + 12) 30 = (body ++ "PM")%string.
Proof.
  apply (@formatTime_halves_of_the_day 9 30). lia.
Defined.

Lemma trim_start_no_lead s : Script.starts_with_space (Script.trim_start s) = false.
Proof.
  induction s as [|c s IH]; simpl; [reflexivity |].
  destruct (Script.is_space c) eqn:Hc; [exact IH | simpl; exact Hc].
Qed.

Lemma trim_end_keeps_lead s :
  Script.starts_with_space s = false ->
  Script.starts_with_space (Script.trim_end s) = false.
Proof.
  destruct s as [|c s]; simpl; [reflexivity |]. intros Hc.
  destruct (Script.trim_end s); simpl; [now rewrite Hc | exact Hc].
Qed.

Lemma trim_end_no_trail s : Script.ends_with_space (Script.trim_end s) = false.
Proof.
  induction s as [|c s IH]; simpl; [reflexivity |].
  destruct (Script.trim_end s) as [|c' r] eqn:Hr.
  - destruct (Script.is_space c) eqn:Hc; simpl; [reflexivity | exact Hc].
  - exact IH.
Qed.

(** X14. [sendMessage] hands the socket at most one frame.  A frame it hands
    over is the value of the input without the white space around it, is not
    empty, and is sent only on a socket whose state is [OPEN], with the input
    emptied; in every other case the page is left as it is.  Calling it a
    second time right away sends nothing more. *)
Theorem sendMessage_sends_trimmed_text_once (p : Script.page) :
  exists sent,
    Script.frames (Script.sendMessage p) = Script.frames p ++ sent
    /\ (sent = [] /\ Script.sendMessage p = p
        \/ sent = [Script.trim (Script.message_value p)]
           /\ Script.trim (Script.message_value p) <> EmptyString
           /\ Script.starts_with_space (Script.trim (Script.message_value p)) = false
           /\ Script.ends_with_space (Script.trim (Script.message_value p)) = false
           /\ Script.socket p = Some Script.OPEN
           /\ Script.message_value (Script.sendMessage p) = EmptyString)
    /\ Script.sendMessage (Script.sendMessage p) = Script.sendMessage p.
Proof.
  unfold Script.sendMessage.
  pose proof (trim_end_no_trail (Script.trim_start (Script.message_value p))) as Htrail.
  pose proof (trim_end_keeps_lead _ (trim_start_no_lead (Script.message_value p)))
    as Hlead.
  fold (Script.trim (Script.message_value p)) in Htrail, Hlead.
  destruct (Script.trim (Script.message_value p)) as [|c r] eqn:Ht.
  - exists []. rewrite app_nil_r, Ht. repeat split. now left.
  - destruct (Script.socket p) as [[| | |]|] eqn:Hs;
      try (exists []; rewrite app_nil_r, Ht, Hs; repeat split; now left).
    exists [String c r]. simpl. split; [reflexivity |]. split.
    + right. repeat split; try assumption. discriminate.
    + reflexivity.
Qed.
